(** * RecipeGem widget: state reconciliation, selection and carousel control

    A shallow embedding of the logic of the RecipeGem ChatGPT widget.
    Two versions of the component are embedded:

    - [WidgetTsx]  : [src/web/src/Widget.tsx], where the payload's cuisine
                     is a list of strings;
    - [Part000]    : [src/unnamed/part_000], where the payload's cuisine is
                     one string and a carousel controller is present.

    The expressions computing [results] and [selected] are textually the
    same in both files; they are embedded once, polymorphically in the type
    of the payload's cuisine. *)

From Stdlib Require Import String Ascii List NArith ZArith Bool Lia.
Import ListNotations.
Open Scope list_scope.

Set Implicit Arguments.

(* ================================================================== *)
(** ** JavaScript values used by the widget *)

Module Js.

(** A JavaScript string is a sequence of UTF-16 code units. *)
Definition code_unit := N.
Definition jsstring := list code_unit.

(** String literals of the source, written as Rocq strings. *)
Definition js (s : string) : jsstring :=
  map N_of_ascii (list_ascii_of_string s).

(** [a === b] on two strings. *)
Fixpoint str_eqb (a b : jsstring) : bool :=
  match a, b with
  | [], [] => true
  | x :: a', y :: b' => N.eqb x y && str_eqb a' b'
  | _, _ => false
  end.

(** A value of type [T | null | undefined]. *)
Inductive Nullish (A : Type) : Type :=
| undefined : Nullish A
| null : Nullish A
| Val : A -> Nullish A.
Arguments undefined {A}.
Arguments null {A}.
Arguments Val {A} _.

(** [x ?? y], both sides possibly nullish. *)
Definition nullish_or {A} (x y : Nullish A) : Nullish A :=
  match x with
  | Val a => Val a
  | _ => y
  end.

(** [x ?? d] where [d] is a proper value. *)
Definition nullish_default {A} (x : Nullish A) (d : A) : A :=
  match x with
  | Val a => a
  | _ => d
  end.

(** Truthiness of a [string | null | undefined]: only a non-empty string
    is truthy. *)
Definition truthy_str (x : Nullish jsstring) : bool :=
  match x with
  | Val (_ :: _) => true
  | _ => false
  end.

(** [a === b] where [a] is a string and [b] is [string | null | undefined]. *)
Definition strict_eq_str (a : jsstring) (b : Nullish jsstring) : bool :=
  match b with
  | Val s => str_eqb a s
  | _ => false
  end.

(** [Array.prototype.find]: the first element satisfying the predicate,
    [undefined] when there is none. *)
Fixpoint array_find {A} (p : A -> bool) (l : list A) : Nullish A :=
  match l with
  | [] => undefined
  | x :: l' => if p x then Val x else array_find p l'
  end.

(** [Array.prototype.join] on an array of strings. *)
Fixpoint join (sep : jsstring) (l : list jsstring) : jsstring :=
  match l with
  | [] => []
  | [x] => x
  | x :: l' => x ++ sep ++ join sep l'
  end.

(** ECMAScript WhiteSpace and LineTerminator code points, the characters
    removed by [String.prototype.trim]. *)
Definition is_white_space (c : code_unit) : bool :=
  ((9 <=? c) && (c <=? 13)          (* TAB, LF, VT, FF, CR *)
   || (c =? 32)                     (* SPACE *)
   || (c =? 160)                    (* NO-BREAK SPACE *)
   || (c =? 5760)                   (* U+1680 *)
   || ((8192 <=? c) && (c <=? 8202))(* U+2000 .. U+200A *)
   || (c =? 8232) || (c =? 8233)    (* LINE / PARAGRAPH SEPARATOR *)
   || (c =? 8239)                   (* U+202F *)
   || (c =? 8287)                   (* U+205F *)
   || (c =? 12288)                  (* U+3000 *)
   || (c =? 65279))%N.              (* U+FEFF *)

Fixpoint trimStart (s : jsstring) : jsstring :=
  match s with
  | [] => []
  | c :: s' => if is_white_space c then trimStart s' else s
  end.

Definition trimEnd (s : jsstring) : jsstring :=
  rev (trimStart (rev s)).

(** [String.prototype.trim]. *)
Definition trim (s : jsstring) : jsstring :=
  trimEnd (trimStart s).

(** [s.split(sep)] for a one-code-unit separator: the empty string gives
    one empty piece, and [n] separators give [n + 1] pieces. *)
Fixpoint split (sep : code_unit) (s : jsstring) : list jsstring :=
  match s with
  | [] => [[]]
  | c :: s' =>
      if N.eqb c sep then [] :: split sep s'
      else match split sep s' with
           | [] => [[c]]
           | w :: ws => (c :: w) :: ws
           end
  end.

(** [Boolean(s)] for a string [s], as used by [filter(Boolean)]. *)
Definition Boolean_str (s : jsstring) : bool :=
  match s with
  | [] => false
  | _ :: _ => true
  end.

(** A whitespace-only string (the empty string included). *)
Definition whitespace_only (s : jsstring) : bool :=
  forallb is_white_space s.

Definition comma : code_unit := 44%N.

End Js.
Import Js.

(* ================================================================== *)
(** ** Data model *)

(** [number] values are only stored and forwarded by the modelled code. *)
Definition number := Z.

Inductive SortMode := duration | complexity.

Module Recipe.
Record t := mk {
  id : jsstring;
  imageUrl : jsstring;
  cuisine : list jsstring;
  title : jsstring;
  affordability : jsstring;
  complexity : jsstring;
  duration : number;
  ingredients : list jsstring;
  steps : list jsstring;
  dietaryLabels : list jsstring
}.
End Recipe.

Module AppliedFilters.
Record t := mk {
  min_duration : Nullish number;
  sort : Nullish SortMode
}.
End AppliedFilters.

(** [Partial<ToolOutput>]: every field may be missing.  [C] is the type of
    the cuisine field: [string[]] in Widget.tsx, [string] in part_000. *)
Module ToolOutput.
Record t (C : Type) := mk {
  cuisine : Nullish C;
  results : Nullish (list Recipe.t);
  selected : Nullish Recipe.t;
  applied_filters : Nullish AppliedFilters.t
}.
Arguments mk {C} _ _ _ _.

(** The object [{}] used when the host has delivered no payload. *)
Definition empty {C} : t C :=
  mk undefined undefined undefined undefined.
End ToolOutput.

Module ToolInput.
Record t := mk {
  cuisine : Nullish jsstring;
  min_duration : Nullish number;
  sort : Nullish SortMode
}.
Definition empty : t := mk undefined undefined undefined.
End ToolInput.

Module WidgetState.
Record t := mk {
  cuisine : Nullish jsstring;
  min_duration : Nullish number;
  sort : Nullish SortMode;
  selected_id : Nullish jsstring
}.

(** The object spread [{ ...state, selected_id: id }]. *)
Definition with_selected_id (state : t) (id : jsstring) : t :=
  mk (cuisine state) (min_duration state) (sort state) (Val id).
End WidgetState.

(** The host object [window.openai], as far as the widget inspects it:
    the [typeof] of its two optional callbacks. *)
Inductive JsTypeof := ty_undefined | ty_function | ty_object | ty_string.

Module OpenAi.
Record t := mk {
  callTool : JsTypeof;
  sendFollowUpMessage : JsTypeof
}.
End OpenAi.

Module Window.
Record t := mk { openai : Nullish OpenAi.t }.
End Window.

(* ================================================================== *)
(** ** State reconciliation (Widget.tsx:42-64, part_000:66-82) *)

Section Reconcile.

Variable C : Type.

(** [const toolInput = useToolInput() ?? {}] *)
Definition toolInput_of (hook : Nullish ToolInput.t) : ToolInput.t :=
  nullish_default hook ToolInput.empty.

(** [const toolOutput = (useToolOutput() ?? {}) as Partial<ToolOutput>] *)
Definition toolOutput_of (hook : Nullish (ToolOutput.t C)) : ToolOutput.t C :=
  nullish_default hook ToolOutput.empty.

(** The initializer handed to [useWidgetState]. *)
Definition initialState (toolInput : ToolInput.t) : WidgetState.t :=
  WidgetState.mk (ToolInput.cuisine toolInput)
                 (ToolInput.min_duration toolInput)
                 (ToolInput.sort toolInput)
                 null.

(** [const results: Recipe[] = toolOutput.results ?? []] *)
Definition results (toolOutput : ToolOutput.t C) : list Recipe.t :=
  nullish_default (ToolOutput.results toolOutput) [].

(** [[
    const selected: Recipe | null =
      toolOutput.selected ??
      (state.selected_id
         ? results.find((s) => s.id === state.selected_id) ?? null
         : null);
    ]] *)
Definition selected (toolOutput : ToolOutput.t C) (state : WidgetState.t)
  : Nullish Recipe.t :=
  nullish_or
    (ToolOutput.selected toolOutput)
    (if truthy_str (WidgetState.selected_id state)
     then nullish_or
            (array_find
               (fun s => strict_eq_str (Recipe.id s) (WidgetState.selected_id state))
               (results toolOutput))
            null
     else null).

(** [const canCallTool = typeof window.openai?.callTool === "function"] *)
Definition canCallTool (window : Window.t) : bool :=
  match Window.openai window with
  | Val o => match OpenAi.callTool o with ty_function => true | _ => false end
  | _ => false
  end.

End Reconcile.

Arguments toolOutput_of {C} _.
Arguments results {C} _.
Arguments selected {C} _ _.

(* ================================================================== *)
(** ** Effects of the selection coordinator *)

(** The [cuisine] argument of a refresh request: an array or a string. *)
Inductive CuisineArg :=
| CuisineList (l : list jsstring)
| CuisineString (s : jsstring).

(** The argument object [{ cuisine, min_duration, sort, selected_id }]. *)
Module ToolArgs.
Record t := mk {
  cuisine : CuisineArg;
  min_duration : Nullish number;
  sort : Nullish SortMode;
  selected_id : jsstring
}.
End ToolArgs.

(** How a promise settles. *)
Inductive Settled := fulfilled | rejected.

(** The body of an [async] function of the widget, as the sequence of its
    effects.  [AwaitCallTool name args k] is
    [await window.openai.callTool(name, args); k]: the value the promise
    resolves to is never used by the source. *)
Inductive Async : Type :=
| Return_ : Async
| SetState : WidgetState.t -> Async -> Async
| AwaitCallTool : jsstring -> ToolArgs.t -> Async -> Async.

Inductive Event :=
| EvSetState (s : WidgetState.t)
| EvCallTool (name : jsstring) (args : ToolArgs.t).

Module Run.
Record t := mk {
  state : WidgetState.t;       (* the persisted widget state afterwards *)
  trace : list Event;          (* the effects, in the order they happened *)
  completion : Settled         (* how the async function's promise settles *)
}.
End Run.

(** The host decides how the [n]-th outbound call settles. *)
Definition Host := nat -> jsstring -> ToolArgs.t -> Settled.

(** Modelled from the spec: [useWidgetState] and [window.openai.callTool]
    live outside the sources ([./openai] and the host).  [setState s] makes
    [s] the persisted state at the moment it is called; [callTool] is
    dispatched when called and its promise settles as the host decides.
    The source has no [try]/[catch]: a rejected awaited promise rejects the
    promise of the async function, and nothing after the [await] runs. *)
Fixpoint run (host : Host) (calls : nat) (p : Async) (st : WidgetState.t) : Run.t :=
  match p with
  | Return_ => Run.mk st [] fulfilled
  | SetState s k =>
      let r := run host calls k s in
      Run.mk (Run.state r) (EvSetState s :: Run.trace r) (Run.completion r)
  | AwaitCallTool name args k =>
      match host calls name args with
      | fulfilled =>
          let r := run host (S calls) k st in
          Run.mk (Run.state r) (EvCallTool name args :: Run.trace r) (Run.completion r)
      | rejected => Run.mk st [EvCallTool name args] rejected
      end
  end.

Definition is_call (e : Event) : bool :=
  match e with
  | EvCallTool _ _ => true
  | EvSetState _ => false
  end.

(** The outbound calls of a trace. *)
Definition outbound (tr : list Event) : list Event := filter is_call tr.

(* ================================================================== *)
(** ** src/web/src/Widget.tsx *)

Module WidgetTsx.

Definition Output := ToolOutput.t (list jsstring).

(** [[
    const cuisineArr = toolOutput.cuisine ?? [];
    return cuisineArr.length ? `Recipes in ${cuisineArr.join(", ")}` : "RecipeGem";
    ]] *)
Definition header (toolOutput : Output) : jsstring :=
  let cuisineArr := nullish_default (ToolOutput.cuisine toolOutput) [] in
  match length cuisineArr with
  | S _ => js "Recipes in " ++ join (js ", ") cuisineArr
  | O => js "RecipeGem"
  end.

(** [[
    const cuisineList = toolOutput.cuisine ??
      (state.cuisine ? state.cuisine.split(",").map(s => s.trim()).filter(Boolean) : []);
    ]] *)
Definition cuisineList (toolOutput : Output) (state : WidgetState.t)
  : list jsstring :=
  nullish_default
    (ToolOutput.cuisine toolOutput)
    (match WidgetState.cuisine state with
     | Val (c :: s) => filter Boolean_str (map trim (split comma (c :: s)))
     | _ => []
     end).

(** [async function selectRecipe(id: string)] *)
Definition selectRecipe (window : Window.t) (toolOutput : Output)
           (state : WidgetState.t) (id : jsstring) : Async :=
  let cuisineList := cuisineList toolOutput state in
  SetState (WidgetState.with_selected_id state id)
    (if canCallTool window
     then AwaitCallTool (js "explore_recipe")
            (ToolArgs.mk (CuisineList cuisineList)
                         (WidgetState.min_duration state)
                         (WidgetState.sort state)
                         id)
            Return_
     else Return_).

End WidgetTsx.

(* ================================================================== *)
(** ** src/unnamed/part_000 *)

Module Part000.

Definition Output := ToolOutput.t jsstring.

(** [[
    const cuisine = toolOutput.cuisine ?? state.cuisine ?? '' (the empty string);
    return cuisine ? `Recipes in ${cuisine}` : "RecipeGem";
    ]] *)
Definition header (toolOutput : Output) (state : WidgetState.t) : jsstring :=
  let cuisine :=
    nullish_default
      (nullish_or (ToolOutput.cuisine toolOutput) (WidgetState.cuisine state))
      [] in
  match cuisine with
  | _ :: _ => js "Recipes in " ++ cuisine
  | [] => js "RecipeGem"
  end.

(** [async function selectRecipe(id: string)] *)
Definition selectRecipe (window : Window.t) (toolOutput : Output)
           (state : WidgetState.t) (id : jsstring) : Async :=
  let cuisine :=
    trim (nullish_default
            (nullish_or (ToolOutput.cuisine toolOutput) (WidgetState.cuisine state))
            []) in
  let min_duration := WidgetState.min_duration state in
  let sort := WidgetState.sort state in
  SetState (WidgetState.with_selected_id state id)
    (if canCallTool window
     then AwaitCallTool (js "explore_recipe")
            (ToolArgs.mk (CuisineString cuisine) min_duration sort id)
            Return_
     else Return_).

(** *** Carousel controller (part_000:40-63) *)

(** What the scroll engine object answers at the moment it is asked.
    [slideCount] is the number of slides it holds, one per rendered
    result; the controller itself never reads it. *)
Module EmblaApi.
Record t := mk {
  canScrollPrev : bool;
  canScrollNext : bool;
  slideCount : nat
}.
End EmblaApi.

(** Notifications of the scroll engine. *)
Inductive EmblaEvent := select | reInit | scroll | settle | resize | destroy.

Definition event_eqb (a b : EmblaEvent) : bool :=
  match a, b with
  | select, select | reInit, reInit | scroll, scroll
  | settle, settle | resize, resize | destroy, destroy => true
  | _, _ => false
  end.

(** The two React states and the event names under which
    [updateButtons] is registered with the engine. *)
Record Carousel := mkCarousel {
  canPrev : bool;
  canNext : bool;
  listeners : list EmblaEvent
}.

(** [React.useState(false)] twice, nothing registered. *)
Definition initial : Carousel := mkCarousel false false [].

(** [[
    const updateButtons = () => {
      setCanPrev(emblaApi.canScrollPrev());
      setCanNext(emblaApi.canScrollNext());
    };
    ]] *)
Definition updateButtons (emblaApi : EmblaApi.t) (c : Carousel) : Carousel :=
  mkCarousel (EmblaApi.canScrollPrev emblaApi)
             (EmblaApi.canScrollNext emblaApi)
             (listeners c).

(** [emblaApi.on(ev, updateButtons)] and [emblaApi.off(ev, updateButtons)] *)
Definition on (ev : EmblaEvent) (c : Carousel) : Carousel :=
  mkCarousel (canPrev c) (canNext c) (ev :: listeners c).

Definition off (ev : EmblaEvent) (c : Carousel) : Carousel :=
  mkCarousel (canPrev c) (canNext c)
             (filter (fun e => negb (event_eqb e ev)) (listeners c)).

(** The body of the effect: nothing without an engine; otherwise update
    at once and subscribe to [select] and [reInit]. *)
Definition effect (emblaApi : Nullish EmblaApi.t) (c : Carousel) : Carousel :=
  match emblaApi with
  | Val api => on reInit (on select (updateButtons api c))
  | _ => c
  end.

(** The clean-up returned by the effect. *)
Definition cleanup (c : Carousel) : Carousel :=
  off reInit (off select c).

(** The engine emits [ev] while answering as [emblaApi]: the handler runs
    when it is registered under [ev]. *)
Definition emit (ev : EmblaEvent) (emblaApi : EmblaApi.t) (c : Carousel) : Carousel :=
  if existsb (event_eqb ev) (listeners c)
  then updateButtons emblaApi c
  else c.

(** The controller's life as a sequence of inputs. *)
Inductive Input :=
| Mount (emblaApi : Nullish EmblaApi.t)
| Notify (ev : EmblaEvent) (emblaApi : EmblaApi.t)
| Teardown.

Definition react (c : Carousel) (i : Input) : Carousel :=
  match i with
  | Mount api => effect api c
  | Notify ev api => emit ev api c
  | Teardown => cleanup c
  end.

Definition react_all (ins : list Input) : Carousel :=
  fold_left react ins initial.

End Part000.

(* ================================================================== *)
(** ** Reading of the claims in the words of the specification *)

(** "The element of the results list whose identifier equals [id], or null
    if none matches": the first such element, as a [Recipe | null]. *)
Definition recipe_with_id (id : jsstring) (rs : list Recipe.t) : Nullish Recipe.t :=
  match find (fun r => str_eqb (Recipe.id r) id) rs with
  | Some r => Val r
  | None => null
  end.

(** A field that is "absent or null". *)
Definition absent_or_null {A} (x : Nullish A) : Prop :=
  x = undefined \/ x = null.

(** The host capability for tool invocation is absent: there is no
    [window.openai], or it has no [callTool]. *)
Definition callTool_absent (window : Window.t) : Prop :=
  match Window.openai window with
  | Val o => OpenAi.callTool o = ty_undefined
  | _ => True
  end.

(** The refresh request of the interface: tool [explore_recipe] with the
    argument object [{ cuisine, min_duration, sort, selected_id }], the two
    filters being those of the persisted state. *)
Definition refresh_request (cuisine : CuisineArg) (state : WidgetState.t)
           (id : jsstring) : Event :=
  EvCallTool (js "explore_recipe")
             (ToolArgs.mk cuisine
                          (WidgetState.min_duration state)
                          (WidgetState.sort state)
                          id).

(** In the run [r] of [selectRecipe(id)] from [state], the first effect is
    the update of the persisted state to [{ ...state, selected_id: id }],
    everything after it is an outbound call, and the persisted state still
    selects [id] when the run is over. *)
Definition updates_before_any_call (state : WidgetState.t) (id : jsstring)
           (r : Run.t) : Prop :=
  exists rest,
    Run.trace r = EvSetState (WidgetState.with_selected_id state id) :: rest /\
    Forall (fun e => is_call e = true) rest /\
    WidgetState.selected_id (Run.state r) = Val id.

(** The host rejects the [n]-th outbound call, whatever it is. *)
Definition rejects_call (host : Host) (n : nat) : Prop :=
  forall name args, host n name args = rejected.

Definition is_notify (i : Part000.Input) : bool :=
  match i with
  | Part000.Notify _ _ => true
  | _ => false
  end.

(* ================================================================== *)
(** ** Sample data *)

Module Sample.

Definition recipe (id title : string) : Recipe.t :=
  Recipe.mk (js id) (js "img.png") [js "Italian"] (js title)
            (js "affordable") (js "simple") 20%Z
            [js "pasta"] [js "boil"] [js "vegetarian"].

Definition r1 := recipe "r1" "Carbonara".
Definition r2 := recipe "r2" "Lasagne".
(** A recipe whose identifier is the empty string. *)
Definition r_anon := recipe EmptyString "Unnamed".

Definition filters := AppliedFilters.mk undefined (Val duration).

(** [{cuisine: ["Italian"], results: [r1, r2], selected: null, ...}] *)
Definition payload : WidgetTsx.Output :=
  ToolOutput.mk (Val [js "Italian"]) (Val [r1; r2]) null (Val filters).

(** The same payload with the authoritative selection [r1]. *)
Definition payload_r1 : WidgetTsx.Output :=
  ToolOutput.mk (Val [js "Italian"]) (Val [r1; r2]) (Val r1) (Val filters).

Definition payload_anon : WidgetTsx.Output :=
  ToolOutput.mk (Val [js "Italian"]) (Val [r_anon; r1]) undefined (Val filters).

(** A payload of the string-typed variant, cuisine not trimmed. *)
Definition payload_str : Part000.Output :=
  ToolOutput.mk (Val (js " Italian ")) (Val [r1; r2]) null (Val filters).

(** CallParameters [{cuisine: "Italian", sort: "duration"}]. *)
Definition params : ToolInput.t :=
  ToolInput.mk (Val (js "Italian")) undefined (Val duration).

Definition state0 : WidgetState.t := initialState params.

Definition host_window : Window.t :=
  Window.mk (Val (OpenAi.mk ty_function ty_function)).
Definition bare_window : Window.t := Window.mk undefined.

Definition rejecting : Host := fun _ _ _ => rejected.
Definition accepting : Host := fun _ _ _ => fulfilled.

(** A payload without cuisine, and a seeded cuisine string with stray
    white space and empty pieces. *)
Definition payload_no_cuisine : WidgetTsx.Output :=
  ToolOutput.mk undefined (Val [r1; r2]) null (Val filters).

Definition state_messy : WidgetState.t :=
  WidgetState.mk (Val (js " Italian, ,Thai ,")) undefined undefined null.

(** A payload of the string-typed variant with no result. *)
Definition payload_no_result : Part000.Output :=
  ToolOutput.mk (Val (js "Italian")) (Val []) null (Val filters).

(** A scroll engine showing [n] slides with slide [i] selected. *)
Definition engine (n i : nat) : Part000.EmblaApi.t :=
  Part000.EmblaApi.mk (Nat.ltb 0 i) (Nat.ltb (S i) n) n.

End Sample.

(* ================================================================== *)
(** ** Further parts of the component *)

(** [obj?.field]: [undefined] when [obj] is nullish. *)
Definition optional_get {A B} (obj : Nullish A) (field : A -> Nullish B)
  : Nullish B :=
  match obj with
  | Val a => field a
  | _ => undefined
  end.

(** [Array.prototype.map] with a callback that also takes the index;
    [i] is the index of the first element of [l]. *)
Fixpoint map_index {A B} (f : A -> nat -> B) (i : nat) (l : list A) : list B :=
  match l with
  | [] => []
  | x :: l' => f x i :: map_index f (S i) l'
  end.

(** The decimal digits of a natural number, as a template literal prints
    an array index. *)
Fixpoint uint_digits (d : Decimal.uint) : jsstring :=
  match d with
  | Decimal.Nil => []
  | Decimal.D0 d' => 48%N :: uint_digits d'
  | Decimal.D1 d' => 49%N :: uint_digits d'
  | Decimal.D2 d' => 50%N :: uint_digits d'
  | Decimal.D3 d' => 51%N :: uint_digits d'
  | Decimal.D4 d' => 52%N :: uint_digits d'
  | Decimal.D5 d' => 53%N :: uint_digits d'
  | Decimal.D6 d' => 54%N :: uint_digits d'
  | Decimal.D7 d' => 55%N :: uint_digits d'
  | Decimal.D8 d' => 56%N :: uint_digits d'
  | Decimal.D9 d' => 57%N :: uint_digits d'
  end.

Definition decimal (n : nat) : jsstring := uint_digits (Nat.to_uint n).

(** The line feed of the template literals. *)
Definition LF : code_unit := 10%N.

Module View.

(** The sort mode shown after "Sorted by"
    (Widget.tsx:108, part_000:121):
    [toolOutput.applied_filters?.sort ?? state.sort ?? "duration"] *)
Definition sortedBy {C} (toolOutput : ToolOutput.t C) (state : WidgetState.t)
  : SortMode :=
  nullish_default
    (nullish_or
       (optional_get (ToolOutput.applied_filters toolOutput) AppliedFilters.sort)
       (WidgetState.sort state))
    duration.

(** [[
    const ingredientsList = selected.ingredients.map((item) => `- ${item}`).join("\n");
    ]] *)
Definition ingredientsList (selected : Recipe.t) : jsstring :=
  join [LF] (map (fun item => js "- " ++ item) (Recipe.ingredients selected)).

(** [[
    const stepsList = selected.steps.map((step, index) => `${index + 1}. ${step}`).join("\n");
    ]] *)
Definition stepsList (selected : Recipe.t) : jsstring :=
  join [LF]
       (map_index (fun step index => decimal (index + 1) ++ js ". " ++ step)
                  0 (Recipe.steps selected)).

(** [[
    return `#### Ingredients\n\n${ingredientsList}\n#### Steps\n\n${stepsList}`;
    ]]
    [marks] is the heading marker: four hashes in Widget.tsx:191, three in
    part_000:270. *)
Definition markdown (marks : jsstring) (selected : Recipe.t) : jsstring :=
  marks ++ js " Ingredients" ++ [LF; LF] ++ ingredientsList selected
        ++ [LF] ++ marks ++ js " Steps" ++ [LF; LF] ++ stepsList selected.

End View.

Module WidgetTsxView.

(** [onClick={() => selectRecipe(recipe.id)}] of a result card
    (Widget.tsx:121). *)
Definition onClick (window : Window.t) (toolOutput : WidgetTsx.Output)
           (state : WidgetState.t) (recipe : Recipe.t) : Async :=
  WidgetTsx.selectRecipe window toolOutput state (Recipe.id recipe).

(** The text handed to [Markdown] (Widget.tsx:188-192). *)
Definition markdown (selected : Recipe.t) : jsstring :=
  View.markdown (js "####") selected.

End WidgetTsxView.

Module Part000View.

(** [onClick={() => selectRecipe(recipe.id)}] of a result card
    (part_000:129). *)
Definition onClick (window : Window.t) (toolOutput : Part000.Output)
           (state : WidgetState.t) (recipe : Recipe.t) : Async :=
  Part000.selectRecipe window toolOutput state (Recipe.id recipe).

(** The text handed to [Markdown] (part_000:267-271). *)
Definition markdown (selected : Recipe.t) : jsstring :=
  View.markdown (js "###") selected.

End Part000View.

(** One call of [selectRecipe]: the host object and payload of the render
    it happens in, how the host settles calls, and the identifier. *)
Module Click.
Record t (C : Type) := mk {
  window : Window.t;
  payload : ToolOutput.t C;
  host : Host;
  recipe_id : jsstring
}.
Arguments mk {C} _ _ _ _.
End Click.

(** The persisted state after a series of selections, each made in a
    render that sees the state left by the one before. *)
Definition after_click {C}
           (selectRecipe : Window.t -> ToolOutput.t C -> WidgetState.t -> jsstring -> Async)
           (state : WidgetState.t) (c : Click.t C) : WidgetState.t :=
  Run.state
    (run (Click.host c) 0
         (selectRecipe (Click.window c) (Click.payload c) state (Click.recipe_id c))
         state).

Definition after_clicks {C}
           (selectRecipe : Window.t -> ToolOutput.t C -> WidgetState.t -> jsstring -> Async)
           (clicks : list (Click.t C)) (state : WidgetState.t) : WidgetState.t :=
  fold_left (after_click selectRecipe) clicks state.

(** The identifier selected last, [null] when nothing was selected. *)
Definition last_selected {C} (clicks : list (Click.t C)) : Nullish jsstring :=
  match rev clicks with
  | [] => null
  | c :: _ => Val (Click.recipe_id c)
  end.

(** A result card whose click can be shown at once: the payload selects
    nothing itself, the recipe is among the results, its identifier is not
    empty, and no other result carries it. *)
Definition selectable_card {C} (P : ToolOutput.t C) (r : Recipe.t) : Prop :=
  absent_or_null (ToolOutput.selected P) /\
  In r (results P) /\
  Recipe.id r <> [] /\
  (forall r', In r' (results P) -> Recipe.id r' = Recipe.id r -> r' = r).

(** A string that neither starts nor ends with white space. *)
Definition starts_clean (s : jsstring) : bool :=
  match s with
  | [] => true
  | c :: _ => negb (is_white_space c)
  end.

Definition trimmed (s : jsstring) : bool :=
  starts_clean s && starts_clean (rev s).

(** A cuisine name as a user writes it between commas: not empty, no
    surrounding white space, no comma inside. *)
Definition clean_name (x : jsstring) : Prop :=
  x <> [] /\ trimmed x = true /\ ~ In comma x.

(** The lines a joined list splits back into: an empty list was joined
    into the empty string, which is one empty line. *)
Definition lines_of (l : list jsstring) : list jsstring :=
  match l with
  | [] => [[]]
  | _ :: _ => l
  end.

(** The engine answers a controller has been given, oldest first. *)
Definition engines_seen (ins : list Part000.Input) : list Part000.EmblaApi.t :=
  flat_map (fun i => match i with
                     | Part000.Mount (Val api) => [api]
                     | Part000.Notify _ api => [api]
                     | _ => []
                     end) ins.

(** The two events the controller subscribes to. *)
Definition subscribed_event (ev : Part000.EmblaEvent) : bool :=
  match ev with
  | Part000.select | Part000.reInit => true
  | _ => false
  end.

(** The handler is registered under [select] and [reInit] at most. *)
Definition only_subscribed (c : Part000.Carousel) : Prop :=
  Forall (fun e => subscribed_event e = true) (Part000.listeners c).

(** A string without line feed. *)
Definition one_line (s : jsstring) : Prop := ~ In LF s.

(* ================================================================== *)
(** ** Facts about the JavaScript operations *)

Lemma str_eqb_eq (a b : jsstring) : str_eqb a b = true <-> a = b.
Proof.
  revert b; induction a as [|x a IH]; intros [|y b]; simpl;
    try (split; [discriminate | intros H; discriminate H]);
    try (split; reflexivity).
  rewrite andb_true_iff, N.eqb_eq, IH.
  split; [intros [-> ->]; reflexivity | intros H; inversion H; auto].
Qed.

Lemma str_eqb_refl (a : jsstring) : str_eqb a a = true.
Proof. apply str_eqb_eq; reflexivity. Qed.

Lemma array_find_find {A} (p : A -> bool) (l : list A) :
  nullish_or (array_find p l) null
  = match find p l with Some x => Val x | None => null end.
Proof.
  induction l as [|x l IH]; simpl; [reflexivity|].
  destruct (p x); [reflexivity | exact IH].
Qed.

Lemma recipe_with_id_sound id rs r :
  recipe_with_id id rs = Val r -> In r rs /\ Recipe.id r = id.
Proof.
  unfold recipe_with_id.
  destruct (find _ rs) as [r'|] eqn:E; [|discriminate].
  intros H; injection H as ->.
  apply find_some in E. destruct E as [Hin Heq].
  split; [exact Hin | apply str_eqb_eq; exact Heq].
Qed.

Lemma recipe_with_id_none id rs :
  (forall r, In r rs -> Recipe.id r <> id) -> recipe_with_id id rs = null.
Proof.
  intros H. unfold recipe_with_id.
  destruct (find _ rs) as [r|] eqn:E; [|reflexivity].
  apply find_some in E. destruct E as [Hin Heq].
  apply str_eqb_eq in Heq. exfalso; exact (H r Hin Heq).
Qed.

Lemma recipe_with_id_some id rs r :
  In r rs -> Recipe.id r = id -> exists r', recipe_with_id id rs = Val r'.
Proof.
  intros Hin Heq. unfold recipe_with_id.
  destruct (find _ rs) as [r'|] eqn:E; [eexists; reflexivity|].
  exfalso. pose proof (find_none _ _ E r Hin) as Hn. simpl in Hn.
  rewrite Heq, str_eqb_refl in Hn. discriminate.
Qed.

(* ================================================================== *)
(** ** State reconciler *)

(** C1. Whenever the payload's [selected] field is a non-null recipe [R],
    the reconciled [selected] is [R], whatever the persisted
    [selected_id] is. *)
Theorem authoritative_selected_wins :
  forall (C : Type) (P : ToolOutput.t C) (R : Recipe.t) (state : WidgetState.t),
    ToolOutput.selected P = Val R ->
    selected P state = Val R.
Proof.
  intros C P R state H. unfold selected. rewrite H. reflexivity.
Qed.

Lemma authoritative_selected_wins_witness :
  ToolOutput.selected Sample.payload_r1 = Val Sample.r1 /\
  selected Sample.payload_r1
           (WidgetState.with_selected_id Sample.state0 (js "r2"))
  = Val Sample.r1.
Proof.
  split; [reflexivity|].
  apply (@authoritative_selected_wins _ Sample.payload_r1 Sample.r1).
  reflexivity.
Defined.

(** C2 as stated fails at the empty identifier: the payload has no
    [selected], its results hold a recipe whose identifier is the empty
    string, the persisted [selected_id] is that identifier, and the
    reconciled [selected] is null instead of that recipe. *)
Lemma empty_selected_id_not_looked_up :
  absent_or_null (ToolOutput.selected Sample.payload_anon) /\
  recipe_with_id (js EmptyString) (results Sample.payload_anon) = Val Sample.r_anon /\
  selected Sample.payload_anon
           (WidgetState.with_selected_id Sample.state0 (js EmptyString))
  = null /\
  selected Sample.payload_anon
           (WidgetState.with_selected_id Sample.state0 (js EmptyString))
  <> recipe_with_id (js EmptyString) (results Sample.payload_anon).
Proof.
  split; [left; reflexivity|].
  split; [reflexivity|].
  split; [reflexivity|].
  vm_compute. discriminate.
Qed.

(** C2, amended. When the payload's [selected] is absent or null and the
    persisted [selected_id] is a non-empty string [id], the reconciled
    [selected] is the first result whose identifier is [id], and null when
    no result has it; an empty [selected_id] counts as no selection and
    gives null.  The result is never [undefined]: no lookup fails. *)
Theorem local_lookup_when_no_authoritative_selection :
  forall (C : Type) (P : ToolOutput.t C) (state : WidgetState.t) (id : jsstring),
    absent_or_null (ToolOutput.selected P) ->
    WidgetState.selected_id state = Val id ->
    (id <> [] -> selected P state = recipe_with_id id (results P)) /\
    (id = [] -> selected P state = null) /\
    ((forall r, In r (results P) -> Recipe.id r <> id) -> selected P state = null) /\
    selected P state <> undefined.
Proof.
  intros C P state id Habs Hid.
  assert (Hsel : selected P state
                 = if truthy_str (Val id)
                   then recipe_with_id id (results P) else null).
  { unfold selected. rewrite Hid.
    assert (Hor : forall y, nullish_or (ToolOutput.selected P) y = y)
      by (intros y; destruct Habs as [-> | ->]; reflexivity).
    rewrite Hor. destruct (truthy_str (Val id)); [|reflexivity].
    rewrite array_find_find. reflexivity. }
  repeat split.
  - intros Hne. rewrite Hsel. destruct id; [contradiction | reflexivity].
  - intros ->. rewrite Hsel. reflexivity.
  - intros Hnone. rewrite Hsel. destruct (truthy_str (Val id)); [|reflexivity].
    apply recipe_with_id_none; exact Hnone.
  - rewrite Hsel. destruct (truthy_str (Val id)); [|discriminate].
    unfold recipe_with_id. destruct (find _ _); discriminate.
Qed.

Lemma local_lookup_when_no_authoritative_selection_witness :
  selected Sample.payload
           (WidgetState.with_selected_id Sample.state0 (js "r2"))
  = Val Sample.r2.
Proof.
  destruct (@local_lookup_when_no_authoritative_selection
              _ Sample.payload
              (WidgetState.with_selected_id Sample.state0 (js "r2"))
              (js "r2"))
    as [H _].
  - right; reflexivity.
  - reflexivity.
  - rewrite H; [reflexivity | discriminate].
Defined.

(** C7. Before any payload has arrived ([useToolOutput()] gives
    [undefined] or [null]), the results list is empty and [selected] is
    null, for every persisted state. *)
Theorem no_payload_empty_view :
  forall (C : Type) (state : WidgetState.t),
    results (toolOutput_of (@undefined (ToolOutput.t C))) = [] /\
    selected (toolOutput_of (@undefined (ToolOutput.t C))) state = null /\
    results (toolOutput_of (@null (ToolOutput.t C))) = [] /\
    selected (toolOutput_of (@null (ToolOutput.t C))) state = null.
Proof.
  intros C state. unfold toolOutput_of, results, selected; simpl.
  destruct (truthy_str (WidgetState.selected_id state)); repeat split; reflexivity.
Qed.

(* ================================================================== *)
(** ** Selection coordinator *)

(** Both versions of [selectRecipe] have the same shape: one state update,
    then at most one awaited call. *)
Lemma run_update_then_call host n window s' st req_name req_args :
  run host n
      (SetState s'
         (if canCallTool window
          then AwaitCallTool req_name req_args Return_
          else Return_))
      st
  = if canCallTool window
    then Run.mk s'
                [EvSetState s'; EvCallTool req_name req_args]
                (host n req_name req_args)
    else Run.mk s' [EvSetState s'] fulfilled.
Proof.
  simpl. destruct (canCallTool window); simpl; [|reflexivity].
  destruct (host n req_name req_args); reflexivity.
Qed.

Lemma run_WidgetTsx_selectRecipe host n window P state id :
  run host n (WidgetTsx.selectRecipe window P state id) state
  = let s' := WidgetState.with_selected_id state id in
    let req := ToolArgs.mk (CuisineList (WidgetTsx.cuisineList P state))
                           (WidgetState.min_duration state)
                           (WidgetState.sort state) id in
    if canCallTool window
    then Run.mk s' [EvSetState s'; EvCallTool (js "explore_recipe") req]
                (host n (js "explore_recipe") req)
    else Run.mk s' [EvSetState s'] fulfilled.
Proof. unfold WidgetTsx.selectRecipe. apply run_update_then_call. Qed.

Lemma run_Part000_selectRecipe host n window P state id :
  run host n (Part000.selectRecipe window P state id) state
  = let s' := WidgetState.with_selected_id state id in
    let cuisine :=
      trim (nullish_default
              (nullish_or (ToolOutput.cuisine P) (WidgetState.cuisine state)) []) in
    let req := ToolArgs.mk (CuisineString cuisine)
                           (WidgetState.min_duration state)
                           (WidgetState.sort state) id in
    if canCallTool window
    then Run.mk s' [EvSetState s'; EvCallTool (js "explore_recipe") req]
                (host n (js "explore_recipe") req)
    else Run.mk s' [EvSetState s'] fulfilled.
Proof. unfold Part000.selectRecipe. apply run_update_then_call. Qed.

Lemma callTool_absent_cannot_call window :
  callTool_absent window -> canCallTool window = false.
Proof.
  unfold callTool_absent, canCallTool.
  destruct (Window.openai window) as [| |o]; try reflexivity.
  intros ->. reflexivity.
Qed.

(** C3. In every run of [selectRecipe(id)], in both versions, the first
    effect sets the persisted [selected_id] to [id]; the outbound call, if
    any, comes after it, and [selected_id] is [id] however the call
    settles.  Nothing is assumed of [id]: it need not occur in the
    results. *)
Theorem selectRecipe_updates_state_first :
  forall (window : Window.t) (Pl : WidgetTsx.Output) (Ps : Part000.Output)
         (state : WidgetState.t) (id : jsstring) (host : Host) (n : nat),
    updates_before_any_call state id
      (run host n (WidgetTsx.selectRecipe window Pl state id) state) /\
    updates_before_any_call state id
      (run host n (Part000.selectRecipe window Ps state id) state).
Proof.
  intros window Pl Ps state id host n.
  rewrite run_WidgetTsx_selectRecipe, run_Part000_selectRecipe.
  unfold updates_before_any_call.
  split; cbv zeta; destruct (canCallTool window); simpl;
    eexists; (split; [reflexivity|]); (split; [|reflexivity]);
    repeat constructor.
Qed.

(** C4. Without the host capability [window.openai.callTool],
    [selectRecipe(id)] fulfils (nothing is thrown), dispatches no call, and
    leaves the persisted state at [{ ...state, selected_id: id }]. *)
Theorem selectRecipe_without_callTool :
  forall (window : Window.t) (Pl : WidgetTsx.Output) (Ps : Part000.Output)
         (state : WidgetState.t) (id : jsstring) (host : Host) (n : nat),
    callTool_absent window ->
    let done :=
      Run.mk (WidgetState.with_selected_id state id)
             [EvSetState (WidgetState.with_selected_id state id)]
             fulfilled in
    run host n (WidgetTsx.selectRecipe window Pl state id) state = done /\
    run host n (Part000.selectRecipe window Ps state id) state = done /\
    outbound (Run.trace done) = [] /\
    WidgetState.selected_id (Run.state done) = Val id.
Proof.
  intros window Pl Ps state id host n Habs.
  apply callTool_absent_cannot_call in Habs.
  rewrite run_WidgetTsx_selectRecipe, run_Part000_selectRecipe.
  cbv zeta. rewrite Habs. repeat split; reflexivity.
Qed.

Lemma selectRecipe_without_callTool_witness :
  callTool_absent Sample.bare_window /\
  run Sample.rejecting 0
      (WidgetTsx.selectRecipe Sample.bare_window Sample.payload
                              Sample.state0 (js "r2"))
      Sample.state0
  = Run.mk (WidgetState.with_selected_id Sample.state0 (js "r2"))
           [EvSetState (WidgetState.with_selected_id Sample.state0 (js "r2"))]
           fulfilled.
Proof.
  split; [exact I|].
  apply (@selectRecipe_without_callTool
           Sample.bare_window Sample.payload Sample.payload_str
           Sample.state0 (js "r2") Sample.rejecting 0 I).
Defined.

(** A payload string with surrounding white space is not forwarded as it
    is by part_000: [" Italian "] reaches the host as ["Italian"]. *)
Lemma string_cuisine_is_trimmed :
  ToolOutput.cuisine Sample.payload_str = Val (js " Italian ") /\
  outbound
    (Run.trace
       (run Sample.accepting 0
            (Part000.selectRecipe Sample.host_window Sample.payload_str
                                  Sample.state0 (js "r2"))
            Sample.state0))
  = [refresh_request (CuisineString (js "Italian")) Sample.state0 (js "r2")] /\
  CuisineString (js "Italian") <> CuisineString (js " Italian ").
Proof.
  split; [reflexivity|]. split; [reflexivity|].
  vm_compute. discriminate.
Qed.

(** C6. When the host can be called and rejects the refresh call, the run
    of [selectRecipe(id)] consists of the state update and that single
    call (no second attempt), its promise rejects, and the persisted state
    is exactly the optimistic one, [selected_id] being [id]; hence for any
    payload [P] the displayed selection is the one reconciled from [P] and
    the optimistic state. *)
Theorem rejected_refresh_keeps_optimistic_state :
  forall (window : Window.t) (Pl : WidgetTsx.Output) (Ps : Part000.Output)
         (state : WidgetState.t) (id : jsstring) (host : Host) (n : nat),
    canCallTool window = true ->
    rejects_call host n ->
    let rl := run host n (WidgetTsx.selectRecipe window Pl state id) state in
    let rs := run host n (Part000.selectRecipe window Ps state id) state in
    let optimistic := WidgetState.with_selected_id state id in
    (Run.state rl = optimistic /\ Run.state rs = optimistic) /\
    WidgetState.selected_id (Run.state rl) = Val id /\
    WidgetState.selected_id (Run.state rs) = Val id /\
    (Run.completion rl = rejected /\ Run.completion rs = rejected) /\
    (List.length (outbound (Run.trace rl)) = 1 /\
     List.length (outbound (Run.trace rs)) = 1) /\
    (forall (C : Type) (P : ToolOutput.t C),
        selected P (Run.state rl) = selected P optimistic /\
        selected P (Run.state rs) = selected P optimistic).
Proof.
  intros window Pl Ps state id host n Hcan Hrej rl rs optimistic.
  subst rl rs optimistic.
  rewrite run_WidgetTsx_selectRecipe, run_Part000_selectRecipe.
  cbv zeta. rewrite Hcan, !Hrej. simpl.
  repeat split; reflexivity.
Qed.

Lemma rejected_refresh_keeps_optimistic_state_witness :
  canCallTool Sample.host_window = true /\
  rejects_call Sample.rejecting 0 /\
  Run.state
    (run Sample.rejecting 0
         (WidgetTsx.selectRecipe Sample.host_window Sample.payload
                                 Sample.state0 (js "r2"))
         Sample.state0)
  = WidgetState.with_selected_id Sample.state0 (js "r2").
Proof.
  assert (Hrej : rejects_call Sample.rejecting 0)
    by (intros name args; reflexivity).
  split; [reflexivity|]. split; [exact Hrej|].
  apply (@rejected_refresh_keeps_optimistic_state
           Sample.host_window Sample.payload Sample.payload_str
           Sample.state0 (js "r2") Sample.rejecting 0 eq_refl Hrej).
Defined.

(* ================================================================== *)
(** ** Locally seeded cuisine list *)

Lemma trimStart_head s c t :
  trimStart s = c :: t -> is_white_space c = false.
Proof.
  induction s as [|x s IH]; simpl; [discriminate|].
  destruct (is_white_space x) eqn:E; [exact IH|].
  intros H; injection H as <- _. exact E.
Qed.

Lemma trim_not_whitespace_only s :
  trim s <> [] -> whitespace_only (trim s) = false.
Proof.
  unfold trim, trimEnd, whitespace_only.
  destruct (trimStart (rev (trimStart s))) as [|c t] eqn:E.
  - intros H; exfalso; apply H; reflexivity.
  - intros _. apply trimStart_head in E.
    apply not_true_is_false. intros Hall.
    rewrite forallb_forall in Hall.
    specialize (Hall c). rewrite E in Hall.
    assert (Hin : In c (rev (c :: t))) by (apply in_rev; rewrite rev_involutive; left; reflexivity).
    specialize (Hall Hin). discriminate.
Qed.

Lemma Boolean_str_nonempty s : Boolean_str s = true <-> s <> [].
Proof.
  destruct s; simpl; split; try discriminate; try reflexivity.
  intros H; exfalso; apply H; reflexivity.
Qed.

Lemma seeded_entries_clean s x :
  In x (filter Boolean_str (map trim (split comma s))) ->
  x <> [] /\ whitespace_only x = false.
Proof.
  intros H. apply filter_In in H. destruct H as [Hin Hb].
  apply Boolean_str_nonempty in Hb.
  apply in_map_iff in Hin. destruct Hin as [y [<- _]].
  split; [exact Hb | apply trim_not_whitespace_only; exact Hb].
Qed.

(** C10. When the payload supplies no cuisine, the cuisine list of the
    refresh request (Widget.tsx) is the locally seeded string split at
    commas, each piece trimmed, empty pieces dropped (and the empty list
    when no string was seeded); no entry of it is empty or made of white
    space only. *)
Theorem seeded_cuisine_list_clean :
  forall (window : Window.t) (P : WidgetTsx.Output) (state : WidgetState.t)
         (id : jsstring) (host : Host) (n : nat),
    absent_or_null (ToolOutput.cuisine P) ->
    let sent := WidgetTsx.cuisineList P state in
    outbound (Run.trace (run host n (WidgetTsx.selectRecipe window P state id) state))
    = (if canCallTool window
       then [refresh_request (CuisineList sent) state id] else []) /\
    sent = match WidgetState.cuisine state with
           | Val s => filter Boolean_str (map trim (split comma s))
           | _ => []
           end /\
    (forall x, In x sent -> x <> [] /\ whitespace_only x = false).
Proof.
  intros window P state id host n Habs sent. subst sent.
  assert (Hlist : WidgetTsx.cuisineList P state
                  = match WidgetState.cuisine state with
                    | Val s => filter Boolean_str (map trim (split comma s))
                    | _ => []
                    end).
  { unfold WidgetTsx.cuisineList.
    destruct Habs as [-> | ->]; simpl;
      destruct (WidgetState.cuisine state) as [| |[|c s]]; reflexivity. }
  split; [|split].
  - rewrite run_WidgetTsx_selectRecipe. cbv zeta.
    destruct (canCallTool window); reflexivity.
  - exact Hlist.
  - intros x Hin. rewrite Hlist in Hin.
    destruct (WidgetState.cuisine state) as [| |s]; try contradiction.
    apply (seeded_entries_clean s); exact Hin.
Qed.

Lemma seeded_cuisine_list_clean_witness :
  absent_or_null (ToolOutput.cuisine Sample.payload_no_cuisine) /\
  WidgetTsx.cuisineList Sample.payload_no_cuisine Sample.state_messy
  = [js "Italian"; js "Thai"] /\
  (forall x,
      In x (WidgetTsx.cuisineList Sample.payload_no_cuisine Sample.state_messy) ->
      x <> [] /\ whitespace_only x = false).
Proof.
  assert (Habs : absent_or_null (ToolOutput.cuisine Sample.payload_no_cuisine))
    by (left; reflexivity).
  split; [exact Habs|]. split; [reflexivity|].
  apply (@seeded_cuisine_list_clean
           Sample.host_window Sample.payload_no_cuisine Sample.state_messy
           (js "r1") Sample.accepting 0 Habs).
Defined.

(* ================================================================== *)
(** ** Header *)

Lemma Recipes_in_is_not_RecipeGem (x : jsstring) :
  js "Recipes in " ++ x <> js "RecipeGem".
Proof. cbv [js list_ascii_of_string map N_of_ascii N_of_digits app]. simpl. congruence. Qed.

(** C8 as stated fails in the string-typed version: with CallParameters
    cuisine ["Italian"] and no payload yet, its header is
    ["Recipes in Italian"], not the fallback title. *)
Lemma seeded_cuisine_reaches_header :
  Sample.state0 = initialState Sample.params /\
  ToolInput.cuisine Sample.params = Val (js "Italian") /\
  Part000.header (toolOutput_of undefined) Sample.state0 = js "Recipes in Italian" /\
  Part000.header (toolOutput_of undefined) Sample.state0 <> js "RecipeGem".
Proof.
  split; [reflexivity|]. split; [reflexivity|]. split; [reflexivity|].
  vm_compute. discriminate.
Qed.

(** C8, amended. In Widget.tsx the header is "Recipes in " followed by the
    payload's cuisines joined with ", " exactly when that list is not
    empty, and "RecipeGem" otherwise; the persisted state plays no part,
    so with no payload the header is "RecipeGem" whatever the
    CallParameters were.  In part_000 the cuisine shown is the payload's
    string, else the locally seeded one: the header is "Recipes in "
    followed by it exactly when it is not empty, and "RecipeGem"
    otherwise; with CallParameters cuisine "Italian" and no payload it is
    "Recipes in Italian". *)
Theorem header_text :
  forall (Pl : WidgetTsx.Output) (Ps : Part000.Output) (state : WidgetState.t),
    let cuisineArr := nullish_default (ToolOutput.cuisine Pl) [] in
    let cuisine :=
      nullish_default
        (nullish_or (ToolOutput.cuisine Ps) (WidgetState.cuisine state)) [] in
    (cuisineArr <> [] <->
     WidgetTsx.header Pl = js "Recipes in " ++ join (js ", ") cuisineArr) /\
    (cuisineArr = [] <-> WidgetTsx.header Pl = js "RecipeGem") /\
    WidgetTsx.header (toolOutput_of undefined) = js "RecipeGem" /\
    WidgetTsx.header (toolOutput_of null) = js "RecipeGem" /\
    (cuisine <> [] <-> Part000.header Ps state = js "Recipes in " ++ cuisine) /\
    (cuisine = [] <-> Part000.header Ps state = js "RecipeGem") /\
    Part000.header (toolOutput_of undefined) (initialState Sample.params)
    = js "Recipes in Italian".
Proof.
  intros Pl Ps state cuisineArr cuisine.
  unfold WidgetTsx.header, Part000.header.
  fold cuisineArr. fold cuisine.
  repeat split; try reflexivity.
  - destruct cuisineArr; [intros H; exfalso; apply H; reflexivity | reflexivity].
  - destruct cuisineArr; [|discriminate].
    simpl List.length. cbv iota. intros H _. symmetry in H.
    exact (Recipes_in_is_not_RecipeGem H).
  - intros ->. reflexivity.
  - destruct cuisineArr; [reflexivity|].
    simpl List.length. cbv iota. intros H.
    exfalso. exact (Recipes_in_is_not_RecipeGem H).
  - destruct cuisine; [intros H; exfalso; apply H; reflexivity | reflexivity].
  - destruct cuisine; [|discriminate].
    intros H _. symmetry in H. exact (Recipes_in_is_not_RecipeGem H).
  - intros ->. reflexivity.
  - destruct cuisine; [reflexivity|].
    intros H. exfalso. exact (Recipes_in_is_not_RecipeGem H).
Qed.

(* ================================================================== *)
(** ** Carousel controller *)

Module CarouselFacts.
Import Part000.

Lemma emit_listeners ev api c : listeners (emit ev api c) = listeners c.
Proof. unfold emit. destruct (existsb _ _); reflexivity. Qed.

Lemma notifications_keep_listeners ins :
  forallb is_notify ins = true ->
  forall c, listeners (fold_left react ins c) = listeners c.
Proof.
  induction ins as [|i ins IH]; simpl; [reflexivity|].
  intros H c. apply andb_true_iff in H. destruct H as [Hi Hins].
  rewrite (IH Hins). destruct i; try discriminate.
  apply emit_listeners.
Qed.

Lemma mount_subscribes api c :
  listeners (effect (Val api) c) = reInit :: select :: listeners c.
Proof. reflexivity. Qed.

Lemma mount_updates api c :
  canPrev (effect (Val api) c) = EmblaApi.canScrollPrev api /\
  canNext (effect (Val api) c) = EmblaApi.canScrollNext api.
Proof. split; reflexivity. Qed.

Lemma emit_subscribed ev api c :
  existsb (event_eqb ev) (listeners c) = true ->
  emit ev api c = updateButtons api c.
Proof. unfold emit. intros ->. reflexivity. Qed.

Lemma react_all_last before api0 notes ev api :
  react_all (before ++ Mount (Val api0) :: notes ++ [Notify ev api])
  = emit ev api
         (fold_left react notes
            (effect (Val api0) (fold_left react before initial))).
Proof.
  unfold react_all. rewrite fold_left_app. simpl.
  rewrite fold_left_app. reflexivity.
Qed.

(** After the clean-up the handler is registered under neither event, so
    a later notification changes nothing. *)
Lemma cleanup_unsubscribes ev api c :
  ev = select \/ ev = reInit ->
  emit ev api (cleanup c) = cleanup c.
Proof.
  intros Hev. unfold emit.
  assert (H : existsb (event_eqb ev) (listeners (cleanup c)) = false).
  { unfold cleanup, off; simpl.
    induction (listeners c) as [|e l IH]; [reflexivity|].
    destruct Hev as [-> | ->]; destruct e; simpl; auto. }
  rewrite H. reflexivity.
Qed.

(** A notification the handler is not registered under changes nothing:
    between two notifications the booleans keep their last values. *)
Lemma other_events_ignored api0 api :
  emit scroll api (effect (Val api0) initial) = effect (Val api0) initial.
Proof. reflexivity. Qed.

End CarouselFacts.

(** C9 as stated fails between a result-set replacement and the engine's
    next notification: the engine was attached while two results were
    shown and answered that it can scroll on; the payload is then replaced
    by one without results; no [select] or [reInit] has arrived yet, and
    [canNext] is still true although the results list is empty. *)
Lemma carousel_buttons_stale_with_empty_results :
  results Sample.payload_no_result = [] /\
  Part000.canNext
    (Part000.react_all [Part000.Mount (Val (Sample.engine 2 0))]) = true /\
  ~ (Part000.canPrev
       (Part000.react_all [Part000.Mount (Val (Sample.engine 2 0))]) = false /\
     Part000.canNext
       (Part000.react_all [Part000.Mount (Val (Sample.engine 2 0))]) = false).
Proof.
  split; [reflexivity|]. split; [reflexivity|].
  intros [_ H]. vm_compute in H. discriminate H.
Qed.

(** C9, amended. Before a scroll engine is attached both booleans are
    false.  When the effect runs with an engine it sets both booleans from
    the engine's answers, and every later [select] or [reInit]
    notification sets both again from what the engine answers then,
    whatever they held before and whatever happened before the engine was
    attached: so also after a result-set replacement.  Both are false
    after the attachment or after such a notification when the engine
    then answers that it can scroll neither way. *)
Theorem carousel_buttons_recomputed :
  forall (before notes : list Part000.Input)
         (api0 api : Part000.EmblaApi.t) (ev : Part000.EmblaEvent),
    forallb is_notify notes = true ->
    ev = Part000.select \/ ev = Part000.reInit ->
    let attached := Part000.react_all (before ++ [Part000.Mount (Val api0)]) in
    let c := Part000.react_all
               (before ++ Part000.Mount (Val api0) :: notes
                       ++ [Part000.Notify ev api]) in
    (Part000.canPrev Part000.initial = false /\
     Part000.canNext Part000.initial = false /\
     Part000.effect undefined Part000.initial = Part000.initial /\
     Part000.effect null Part000.initial = Part000.initial) /\
    (Part000.canPrev attached = Part000.EmblaApi.canScrollPrev api0 /\
     Part000.canNext attached = Part000.EmblaApi.canScrollNext api0) /\
    (Part000.canPrev c = Part000.EmblaApi.canScrollPrev api /\
     Part000.canNext c = Part000.EmblaApi.canScrollNext api) /\
    (Part000.EmblaApi.canScrollPrev api0 = false ->
     Part000.EmblaApi.canScrollNext api0 = false ->
     Part000.canPrev attached = false /\ Part000.canNext attached = false) /\
    (Part000.EmblaApi.canScrollPrev api = false ->
     Part000.EmblaApi.canScrollNext api = false ->
     Part000.canPrev c = false /\ Part000.canNext c = false).
Proof.
  intros before notes api0 api ev Hnotes Hev attached c.
  assert (Hc : exists s, c = Part000.updateButtons api s).
  { subst c. rewrite CarouselFacts.react_all_last.
    set (m := Part000.effect (Val api0) (fold_left Part000.react before Part000.initial)).
    set (s := fold_left Part000.react notes m).
    assert (Hs : Part000.listeners s = Part000.listeners m)
      by (apply CarouselFacts.notifications_keep_listeners; exact Hnotes).
    assert (Hsub : existsb (Part000.event_eqb ev) (Part000.listeners s) = true).
    { rewrite Hs. subst m. rewrite CarouselFacts.mount_subscribes.
      destruct Hev as [-> | ->]; reflexivity. }
    exists s. apply CarouselFacts.emit_subscribed. exact Hsub. }
  destruct Hc as [s Hc].
  assert (Hboth : Part000.canPrev c = Part000.EmblaApi.canScrollPrev api /\
                  Part000.canNext c = Part000.EmblaApi.canScrollNext api)
    by (rewrite Hc; split; reflexivity).
  assert (Hatt : Part000.canPrev attached = Part000.EmblaApi.canScrollPrev api0 /\
                 Part000.canNext attached = Part000.EmblaApi.canScrollNext api0).
  { subst attached. unfold Part000.react_all.
    rewrite fold_left_app. simpl. split; reflexivity. }
  split; [repeat split; reflexivity|].
  split; [exact Hatt|].
  split; [exact Hboth|].
  split.
  - intros Hp Hn. destruct Hatt as [-> ->]. split; assumption.
  - intros Hp Hn. destruct Hboth as [-> ->]. split; assumption.
Qed.

Lemma carousel_buttons_recomputed_witness :
  let stale := Part000.react_all
                 [Part000.Mount (Val (Sample.engine 2 0));
                  Part000.Notify Part000.select (Sample.engine 2 1)] in
  let c := Part000.react_all
             [Part000.Mount (Val (Sample.engine 2 0));
              Part000.Notify Part000.select (Sample.engine 2 1);
              Part000.Notify Part000.reInit (Sample.engine 0 0)] in
  Part000.canPrev stale = true /\
  Part000.canPrev c = false /\ Part000.canNext c = false.
Proof.
  split; [reflexivity|].
  destruct (@carousel_buttons_recomputed
              [] [Part000.Notify Part000.select (Sample.engine 2 1)]
              (Sample.engine 2 0) (Sample.engine 0 0) Part000.reInit
              eq_refl (or_intror eq_refl))
    as (_ & _ & _ & _ & Hquiet).
  exact (Hquiet eq_refl eq_refl).
Defined.

(* ================================================================== *)
(** ** Scenarios *)

(** The payload selects nothing and the user picks [r2]: the view shows
    [r2] at once, whether the refresh is accepted or rejected. *)
Example scenario_optimistic_selection :
  forall host,
    selected Sample.payload
             (Run.state
                (run host 0
                     (WidgetTsx.selectRecipe Sample.host_window Sample.payload
                                             Sample.state0 (js "r2"))
                     Sample.state0))
    = Val Sample.r2.
Proof.
  intros host. rewrite run_WidgetTsx_selectRecipe. reflexivity.
Qed.

(** A later payload selecting [r1] overrides the local choice of [r2]. *)
Example scenario_authoritative_override :
  selected Sample.payload_r1
           (WidgetState.with_selected_id Sample.state0 (js "r2"))
  = Val Sample.r1.
Proof. reflexivity. Qed.

(** Selecting an identifier no result has shows no selection. *)
Example scenario_missing_id :
  selected Sample.payload
           (WidgetState.with_selected_id Sample.state0 (js "missing-id"))
  = null.
Proof. reflexivity. Qed.

Example split_keeps_empty_pieces :
  split comma (js "a,,b,") = [js "a"; []; js "b"; []].
Proof. reflexivity. Qed.

Example trim_strips_both_ends :
  trim (9 :: 32 :: js "to go" ++ [160; 10])%N = js "to go".
Proof. reflexivity. Qed.

Example header_joins_cuisines :
  WidgetTsx.header
    (ToolOutput.mk (Val [js "Italian"; js "Thai"]) undefined undefined undefined)
  = js "Recipes in Italian, Thai".
Proof. reflexivity. Qed.

(* ================================================================== *)
(** ** More on the reconciled view *)

Lemma array_find_sound {A} (p : A -> bool) (l : list A) (x : A) :
  array_find p l = Val x -> In x l /\ p x = true.
Proof.
  induction l as [|y l IH]; simpl; [discriminate|].
  destruct (p y) eqn:E.
  - intros H; injection H as <-. split; [left; reflexivity | exact E].
  - intros H. destruct (IH H) as [Hin Hp]. split; [right; exact Hin | exact Hp].
Qed.

Lemma array_find_never_null {A} (p : A -> bool) (l : list A) :
  array_find p l <> null.
Proof.
  induction l as [|y l IH]; simpl; [discriminate|].
  destruct (p y); [discriminate | exact IH].
Qed.

(** X1. The reconciled [selected] is never [undefined], and a recipe it
    shows is either the payload's own selection or, the payload selecting
    nothing, a member of the results whose non-empty identifier is the
    persisted [selected_id]. *)
Theorem selected_provenance :
  forall (C : Type) (P : ToolOutput.t C) (state : WidgetState.t),
    selected P state <> undefined /\
    (forall r,
        selected P state = Val r ->
        ToolOutput.selected P = Val r \/
        (absent_or_null (ToolOutput.selected P) /\
         In r (results P) /\
         Recipe.id r <> [] /\
         WidgetState.selected_id state = Val (Recipe.id r))).
Proof.
  intros C P state. unfold selected.
  destruct (ToolOutput.selected P) as [| |r0] eqn:Hsel; simpl.
  3: { split; [discriminate|]. intros r H. left. exact H. }
  all: destruct (WidgetState.selected_id state) as [| |[|c id]] eqn:Hid; simpl;
    try (split; [discriminate | intros r H; discriminate H]).
  all: destruct (array_find _ (results P)) as [| |r1] eqn:Hfind; simpl;
    try (split; [discriminate | intros r H; discriminate H]).
  all: split; [discriminate|]; intros r H; injection H as <-; right.
  all: apply array_find_sound in Hfind; destruct Hfind as [Hin Heq];
    simpl in Heq; apply str_eqb_eq in Heq.
  all: repeat split; auto; try (rewrite Heq; discriminate);
    try (rewrite Heq; reflexivity).
  all: try (left; reflexivity); try (right; reflexivity).
Qed.

Lemma lookup_of_selectable (C : Type) (P : ToolOutput.t C) (r : Recipe.t)
      (state : WidgetState.t) :
  selectable_card P r ->
  selected P (WidgetState.with_selected_id state (Recipe.id r)) = Val r.
Proof.
  intros (Habs & Hin & Hne & Huniq).
  unfold selected. simpl WidgetState.selected_id.
  assert (Hor : forall y, nullish_or (ToolOutput.selected P) y = y)
    by (intros y; destruct Habs as [-> | ->]; reflexivity).
  rewrite Hor.
  destruct (Recipe.id r) as [|c id] eqn:Hid; [contradiction|].
  simpl truthy_str. cbv iota.
  rewrite array_find_find.
  change (recipe_with_id (c :: id) (results P) = Val r).
  destruct (@recipe_with_id_some (c :: id) (results P) r Hin Hid) as [r' Hr'].
  rewrite Hr'. f_equal.
  apply recipe_with_id_sound in Hr'. destruct Hr' as [Hin' Hid'].
  apply Huniq; [exact Hin' | congruence].
Qed.

Lemma run_state_of_selectRecipe_WidgetTsx host n window P closure id current :
  Run.state (run host n (WidgetTsx.selectRecipe window P closure id) current)
  = WidgetState.with_selected_id closure id.
Proof.
  unfold WidgetTsx.selectRecipe. rewrite run_update_then_call.
  destruct (canCallTool window); reflexivity.
Qed.

Lemma run_state_of_selectRecipe_Part000 host n window P closure id current :
  Run.state (run host n (Part000.selectRecipe window P closure id) current)
  = WidgetState.with_selected_id closure id.
Proof.
  unfold Part000.selectRecipe. rewrite run_update_then_call.
  destruct (canCallTool window); reflexivity.
Qed.

(** X2. Clicking a result card whose identifier is non-empty and carried
    by no other result, while the payload selects nothing, makes the view
    show exactly that recipe as soon as the click's state update is
    applied: with or without the host capability, and whether the refresh
    call is fulfilled or rejected. *)
Theorem clicked_card_is_shown :
  forall (window : Window.t) (Pl : WidgetTsx.Output) (Ps : Part000.Output)
         (state : WidgetState.t) (rl rs : Recipe.t) (host : Host) (n : nat),
    selectable_card Pl rl ->
    selectable_card Ps rs ->
    selected Pl (Run.state (run host n (WidgetTsxView.onClick window Pl state rl) state))
    = Val rl /\
    selected Ps (Run.state (run host n (Part000View.onClick window Ps state rs) state))
    = Val rs.
Proof.
  intros window Pl Ps state rl rs host n Hl Hs.
  unfold WidgetTsxView.onClick, Part000View.onClick.
  rewrite run_state_of_selectRecipe_WidgetTsx, run_state_of_selectRecipe_Part000.
  split; apply lookup_of_selectable; assumption.
Qed.

Lemma sample_cards_selectable :
  selectable_card Sample.payload Sample.r2 /\
  selectable_card Sample.payload_str Sample.r1.
Proof.
  split; (split; [right; reflexivity|]); (split; [simpl; auto|]);
    (split; [discriminate|]);
    intros r' [<- | [<- | []]] H; try reflexivity; vm_compute in H; discriminate H.
Qed.

Lemma clicked_card_is_shown_witness :
  selected Sample.payload
           (Run.state (run Sample.rejecting 0
                           (WidgetTsxView.onClick Sample.host_window Sample.payload
                                                  Sample.state0 Sample.r2)
                           Sample.state0))
  = Val Sample.r2 /\
  selected Sample.payload_str
           (Run.state (run Sample.rejecting 0
                           (Part000View.onClick Sample.host_window Sample.payload_str
                                                Sample.state0 Sample.r1)
                           Sample.state0))
  = Val Sample.r1.
Proof.
  apply (@clicked_card_is_shown
           Sample.host_window Sample.payload Sample.payload_str Sample.state0
           Sample.r2 Sample.r1 Sample.rejecting 0
           (proj1 sample_cards_selectable) (proj2 sample_cards_selectable)).
Defined.

(* ================================================================== *)
(** ** Series of selections *)

Lemma with_selected_id_twice state id1 id2 :
  WidgetState.with_selected_id (WidgetState.with_selected_id state id1) id2
  = WidgetState.with_selected_id state id2.
Proof. reflexivity. Qed.

Lemma after_click_WidgetTsx state c :
  after_click WidgetTsx.selectRecipe state c
  = WidgetState.with_selected_id state (Click.recipe_id c).
Proof. apply run_state_of_selectRecipe_WidgetTsx. Qed.

Lemma after_click_Part000 state c :
  after_click Part000.selectRecipe state c
  = WidgetState.with_selected_id state (Click.recipe_id c).
Proof. apply run_state_of_selectRecipe_Part000. Qed.

Lemma after_clicks_WidgetTsx clicks state :
  let st := after_clicks WidgetTsx.selectRecipe clicks state in
  WidgetState.cuisine st = WidgetState.cuisine state /\
  WidgetState.min_duration st = WidgetState.min_duration state /\
  WidgetState.sort st = WidgetState.sort state /\
  WidgetState.selected_id st
  = match rev clicks with
    | [] => WidgetState.selected_id state
    | c :: _ => Val (Click.recipe_id c)
    end.
Proof.
  unfold after_clicks.
  induction clicks as [|c clicks IH] using rev_ind; [repeat split; reflexivity|].
  rewrite fold_left_app, rev_app_distr. simpl.
  rewrite !after_click_WidgetTsx.
  simpl in IH. destruct IH as (H1 & H2 & H3 & _).
  simpl. repeat split; assumption.
Qed.

Lemma after_clicks_Part000 clicks state :
  let st := after_clicks Part000.selectRecipe clicks state in
  WidgetState.cuisine st = WidgetState.cuisine state /\
  WidgetState.min_duration st = WidgetState.min_duration state /\
  WidgetState.sort st = WidgetState.sort state /\
  WidgetState.selected_id st
  = match rev clicks with
    | [] => WidgetState.selected_id state
    | c :: _ => Val (Click.recipe_id c)
    end.
Proof.
  unfold after_clicks.
  induction clicks as [|c clicks IH] using rev_ind; [repeat split; reflexivity|].
  rewrite fold_left_app, rev_app_distr. simpl.
  rewrite !after_click_Part000.
  simpl in IH. destruct IH as (H1 & H2 & H3 & _).
  simpl. repeat split; assumption.
Qed.

(** X3. However many selections are made after the widget state was
    seeded from the call parameters, and whatever the host and the
    payloads were at each of them, the persisted cuisine, min_duration and
    sort stay those of the call parameters, [selected_id] is the identifier
    selected last (null when none was), and the next refresh request
    carries the call parameters' min_duration and sort. *)
Theorem filters_survive_selections :
  forall (toolInput : ToolInput.t)
         (clicks_l : list (Click.t (list jsstring)))
         (clicks_s : list (Click.t jsstring))
         (window : Window.t) (Pl : WidgetTsx.Output) (Ps : Part000.Output)
         (id : jsstring) (host : Host) (n : nat),
    let stl := after_clicks WidgetTsx.selectRecipe clicks_l (initialState toolInput) in
    let sts := after_clicks Part000.selectRecipe clicks_s (initialState toolInput) in
    (WidgetState.cuisine stl = ToolInput.cuisine toolInput /\
     WidgetState.min_duration stl = ToolInput.min_duration toolInput /\
     WidgetState.sort stl = ToolInput.sort toolInput /\
     WidgetState.selected_id stl = last_selected clicks_l) /\
    (WidgetState.cuisine sts = ToolInput.cuisine toolInput /\
     WidgetState.min_duration sts = ToolInput.min_duration toolInput /\
     WidgetState.sort sts = ToolInput.sort toolInput /\
     WidgetState.selected_id sts = last_selected clicks_s) /\
    outbound (Run.trace (run host n (WidgetTsx.selectRecipe window Pl stl id) stl))
    = (if canCallTool window
       then [EvCallTool (js "explore_recipe")
                        (ToolArgs.mk (CuisineList (WidgetTsx.cuisineList Pl stl))
                                     (ToolInput.min_duration toolInput)
                                     (ToolInput.sort toolInput) id)]
       else []) /\
    (exists cuisine,
        outbound (Run.trace (run host n (Part000.selectRecipe window Ps sts id) sts))
        = (if canCallTool window
           then [EvCallTool (js "explore_recipe")
                            (ToolArgs.mk (CuisineString cuisine)
                                         (ToolInput.min_duration toolInput)
                                         (ToolInput.sort toolInput) id)]
           else [])).
Proof.
  intros toolInput clicks_l clicks_s window Pl Ps id host n stl sts.
  destruct (after_clicks_WidgetTsx clicks_l (initialState toolInput))
    as (Hl1 & Hl2 & Hl3 & Hl4).
  destruct (after_clicks_Part000 clicks_s (initialState toolInput))
    as (Hs1 & Hs2 & Hs3 & Hs4).
  fold stl in Hl1, Hl2, Hl3, Hl4. fold sts in Hs1, Hs2, Hs3, Hs4.
  split; [|split; [|split]].
  - repeat split; assumption.
  - repeat split; assumption.
  - rewrite run_WidgetTsx_selectRecipe. cbv zeta. rewrite Hl2, Hl3.
    destruct (canCallTool window); reflexivity.
  - rewrite run_Part000_selectRecipe. cbv zeta. rewrite Hs2, Hs3.
    eexists. destruct (canCallTool window); reflexivity.
Qed.

(** X4. A second selection made before the component has rendered again
    still sees the old state in its closure; the persisted state it leaves
    is the same as when it sees the updated one: the state before both
    selections with [selected_id] set to the second identifier. *)
Theorem second_selection_wins :
  forall (w1 w2 : Window.t) (Pl1 Pl2 : WidgetTsx.Output) (Ps1 Ps2 : Part000.Output)
         (state closure : WidgetState.t) (id1 id2 : jsstring)
         (h1 h2 : Host) (n1 n2 : nat),
    let after1_l := Run.state (run h1 n1 (WidgetTsx.selectRecipe w1 Pl1 state id1) state) in
    let after1_s := Run.state (run h1 n1 (Part000.selectRecipe w1 Ps1 state id1) state) in
    closure = state \/ closure = WidgetState.with_selected_id state id1 ->
    Run.state (run h2 n2 (WidgetTsx.selectRecipe w2 Pl2 closure id2) after1_l)
    = WidgetState.with_selected_id state id2 /\
    Run.state (run h2 n2 (Part000.selectRecipe w2 Ps2 closure id2) after1_s)
    = WidgetState.with_selected_id state id2.
Proof.
  intros w1 w2 Pl1 Pl2 Ps1 Ps2 state closure id1 id2 h1 h2 n1 n2 a1 a2 Hc.
  rewrite run_state_of_selectRecipe_WidgetTsx, run_state_of_selectRecipe_Part000.
  destruct Hc as [-> | ->]; split; reflexivity.
Qed.

Lemma second_selection_wins_witness :
  Run.state
    (run Sample.accepting 0
         (WidgetTsx.selectRecipe Sample.host_window Sample.payload
                                 Sample.state0 (js "r2"))
         (Run.state
            (run Sample.rejecting 0
                 (WidgetTsx.selectRecipe Sample.host_window Sample.payload
                                         Sample.state0 (js "r1"))
                 Sample.state0)))
  = WidgetState.with_selected_id Sample.state0 (js "r2").
Proof.
  apply (@second_selection_wins
           Sample.host_window Sample.host_window
           Sample.payload Sample.payload Sample.payload_str Sample.payload_str
           Sample.state0 Sample.state0 (js "r1") (js "r2")
           Sample.rejecting Sample.accepting 0 0 (or_introl eq_refl)).
Defined.

(* ================================================================== *)
(** ** The view before any user action, and the sort label *)

(** X5. With the state the initializer creates, nothing is selected
    locally: the view shows the payload's own selection when it has one
    and none otherwise, whatever the results and the call parameters are;
    and with no payload at all the sort label is the call parameters'
    sort, [duration] when they give none. *)
Theorem fresh_widget_view :
  forall (C : Type) (hook : Nullish ToolInput.t) (P : ToolOutput.t C),
    let state := initialState (toolInput_of hook) in
    WidgetState.selected_id state = null /\
    selected P state = nullish_or (ToolOutput.selected P) null /\
    (absent_or_null (ToolOutput.selected P) -> selected P state = null) /\
    View.sortedBy (toolOutput_of (@undefined (ToolOutput.t C))) state
    = nullish_default (ToolInput.sort (toolInput_of hook)) duration /\
    (absent_or_null hook ->
     View.sortedBy (toolOutput_of (@undefined (ToolOutput.t C))) state = duration).
Proof.
  intros C hook P state. subst state.
  split; [reflexivity|]. split; [reflexivity|].
  split; [intros [H | H]; unfold selected; rewrite H; reflexivity|].
  split; [unfold View.sortedBy; simpl; destruct (ToolInput.sort _); reflexivity|].
  intros [-> | ->]; reflexivity.
Qed.

(** X6. The sort label is the sort the backend reports as applied whenever
    the payload reports one, whatever sort the persisted state holds;
    only when the payload has no applied filters, or they name no sort,
    it is the persisted sort, and [duration] when that is missing too. *)
Theorem sort_label_precedence :
  forall (C : Type) (P : ToolOutput.t C) (state : WidgetState.t),
    let applied :=
      optional_get (ToolOutput.applied_filters P) AppliedFilters.sort in
    (forall s, applied = Val s -> View.sortedBy P state = s) /\
    (absent_or_null applied ->
     forall s, WidgetState.sort state = Val s -> View.sortedBy P state = s) /\
    (absent_or_null applied ->
     absent_or_null (WidgetState.sort state) ->
     View.sortedBy P state = duration) /\
    (absent_or_null (ToolOutput.applied_filters P) -> applied = undefined).
Proof.
  intros C P state applied. unfold View.sortedBy. fold applied.
  repeat split.
  - intros s ->. reflexivity.
  - intros [-> | ->] s ->; reflexivity.
  - intros [-> | ->] [-> | ->]; reflexivity.
  - subst applied. intros [-> | ->]; reflexivity.
Qed.

(* ================================================================== *)
(** ** Trimming and splitting *)

Module StringFacts.

Lemma starts_clean_trimStart s : starts_clean (trimStart s) = true.
Proof.
  induction s as [|c s IH]; simpl; [reflexivity|].
  destruct (is_white_space c) eqn:E; [exact IH|].
  simpl. rewrite E. reflexivity.
Qed.

Lemma trimStart_clean s : starts_clean s = true -> trimStart s = s.
Proof.
  destruct s as [|c s]; simpl; [reflexivity|].
  destruct (is_white_space c); [discriminate | reflexivity].
Qed.

Lemma trimStart_suffix s : exists p, s = p ++ trimStart s.
Proof.
  induction s as [|c s [p IH]]; simpl; [exists []; reflexivity|].
  destruct (is_white_space c).
  - exists (c :: p). simpl. f_equal. exact IH.
  - exists []. reflexivity.
Qed.

Lemma trimStart_padding pad s :
  whitespace_only pad = true -> trimStart (pad ++ s) = trimStart s.
Proof.
  unfold whitespace_only.
  induction pad as [|c pad IH]; simpl; [reflexivity|].
  intros H. apply andb_true_iff in H. destruct H as [-> H]. exact (IH H).
Qed.

Lemma starts_clean_prefix a b :
  starts_clean (a ++ b) = true -> starts_clean a = true.
Proof. destruct a; [reflexivity | simpl; auto]. Qed.

Lemma trimmed_trim s : trimmed (trim s) = true.
Proof.
  unfold trimmed, trim, trimEnd.
  rewrite rev_involutive, starts_clean_trimStart, andb_true_r.
  destruct (trimStart_suffix (rev (trimStart s))) as [p Hp].
  apply (@starts_clean_prefix _ (rev p)).
  rewrite <- rev_app_distr, <- Hp, rev_involutive.
  apply starts_clean_trimStart.
Qed.

Lemma trim_fixed s : trimmed s = true -> trim s = s.
Proof.
  unfold trimmed, trim, trimEnd. intros H.
  apply andb_true_iff in H. destruct H as [H1 H2].
  rewrite (@trimStart_clean s H1), (@trimStart_clean (rev s) H2).
  apply rev_involutive.
Qed.

Lemma trim_idempotent s : trim (trim s) = trim s.
Proof. apply trim_fixed, trimmed_trim. Qed.

Lemma In_trimStart c s : In c (trimStart s) -> In c s.
Proof.
  induction s as [|x s IH]; simpl; [auto|].
  destruct (is_white_space x); [intros H; right; exact (IH H) | auto].
Qed.

Lemma In_trim c s : In c (trim s) -> In c s.
Proof.
  unfold trim, trimEnd. intros H.
  apply in_rev in H. apply In_trimStart in H. apply in_rev in H.
  apply In_trimStart. exact H.
Qed.

Lemma trim_padded pad s :
  whitespace_only pad = true -> trim (pad ++ s) = trim s.
Proof.
  intros H. unfold trim. rewrite trimStart_padding by exact H. reflexivity.
Qed.

Lemma split_not_nil sep s : split sep s <> [].
Proof.
  destruct s as [|c s]; simpl; [discriminate|].
  destruct (N.eqb c sep); [discriminate|].
  destruct (split sep s); discriminate.
Qed.

Lemma split_pieces_sep_free sep s x : In x (split sep s) -> ~ In sep x.
Proof.
  revert x. induction s as [|c s IH]; simpl; intros x H.
  - destruct H as [<- | []]. auto.
  - destruct (N.eqb c sep) eqn:E.
    + destruct H as [<- | H]; [auto | exact (IH x H)].
    + destruct (split sep s) as [|w ws] eqn:Es.
      * destruct H as [<- | []]. intros [-> | []].
        rewrite N.eqb_refl in E. discriminate.
      * destruct H as [<- | H].
        -- intros [-> | Hin]; [rewrite N.eqb_refl in E; discriminate|].
           exact (IH w (or_introl eq_refl) Hin).
        -- exact (IH x (or_intror H)).
Qed.

Lemma split_sep_free sep x : ~ In sep x -> split sep x = [x].
Proof.
  induction x as [|c x IH]; simpl; [reflexivity|].
  intros H. destruct (N.eqb c sep) eqn:E.
  - apply N.eqb_eq in E. exfalso. apply H. left. exact E.
  - rewrite IH; [reflexivity | intros Hin; apply H; right; exact Hin].
Qed.

Lemma split_app_sep sep a b :
  split sep (a ++ sep :: b) = split sep a ++ split sep b.
Proof.
  induction a as [|c a IH]; simpl.
  - rewrite N.eqb_refl. reflexivity.
  - destruct (N.eqb c sep); rewrite IH; [reflexivity|].
    destruct (split sep a) as [|w ws] eqn:E; [|reflexivity].
    exfalso. exact (@split_not_nil _ _ E).
Qed.

Lemma split_prepend sep p y :
  ~ In sep p ->
  split sep (p ++ y) = (p ++ hd [] (split sep y)) :: tl (split sep y).
Proof.
  induction p as [|c p IH]; simpl; intros H.
  - destruct (split sep y) as [|w ws] eqn:E; [|reflexivity].
    exfalso. exact (@split_not_nil _ _ E).
  - destruct (N.eqb c sep) eqn:E.
    + apply N.eqb_eq in E. exfalso. apply H. left. exact E.
    + rewrite IH; [reflexivity | intros Hin; apply H; right; exact Hin].
Qed.

(** Splitting what was joined with a separator followed by padding gives
    the pieces back, all but the first still carrying the padding. *)
Lemma split_join sep pad x xs :
  ~ In sep pad ->
  Forall (fun y => ~ In sep y) (x :: xs) ->
  split sep (join (sep :: pad) (x :: xs)) = x :: map (app pad) xs.
Proof.
  intros Hpad. revert x. induction xs as [|x' xs IH]; intros x H.
  - simpl. apply split_sep_free. inversion H; assumption.
  - inversion H as [|? ? Hx Hrest]; subst.
    pose proof (IH x' Hrest) as IH'.
    change (join (sep :: pad) (x :: x' :: xs))
      with (x ++ sep :: pad ++ join (sep :: pad) (x' :: xs)).
    set (j := join (sep :: pad) (x' :: xs)) in *.
    rewrite split_app_sep, (@split_sep_free sep x Hx).
    rewrite (@split_prepend sep pad j Hpad), IH'. reflexivity.
Qed.

(** The same with a one-code-unit separator and no padding. *)
Lemma split_join_lines sep l :
  Forall (fun y => ~ In sep y) l ->
  split sep (join [sep] l) = lines_of l.
Proof.
  intros H. destruct l as [|x xs]; [reflexivity|].
  rewrite (@split_join sep [] x xs); [|auto | exact H].
  simpl. f_equal. exact (map_id xs).
Qed.

End StringFacts.

Lemma cuisineList_seeded (P : WidgetTsx.Output) (state : WidgetState.t) :
  absent_or_null (ToolOutput.cuisine P) ->
  WidgetTsx.cuisineList P state
  = match WidgetState.cuisine state with
    | Val s => filter Boolean_str (map trim (split comma s))
    | _ => []
    end.
Proof.
  intros Habs. unfold WidgetTsx.cuisineList.
  destruct Habs as [-> | ->]; simpl;
    destruct (WidgetState.cuisine state) as [| |[|c s]]; reflexivity.
Qed.

(** X7. When the payload supplies no cuisine, every entry of the cuisine
    list sent by Widget.tsx is free of commas and neither starts nor ends
    with white space, so trimming it again changes nothing; and there are
    no more entries than pieces between the commas of the seeded
    string. *)
Theorem seeded_entries_normal :
  forall (P : WidgetTsx.Output) (state : WidgetState.t),
    absent_or_null (ToolOutput.cuisine P) ->
    (forall x,
        In x (WidgetTsx.cuisineList P state) ->
        ~ In comma x /\ trimmed x = true /\ trim x = x) /\
    (forall s,
        WidgetState.cuisine state = Val s ->
        List.length (WidgetTsx.cuisineList P state)
        <= List.length (split comma s)).
Proof.
  intros P state Habs. rewrite (@cuisineList_seeded P state Habs).
  split.
  - intros x Hin.
    destruct (WidgetState.cuisine state) as [| |s]; try contradiction.
    apply filter_In in Hin. destruct Hin as [Hin _].
    apply in_map_iff in Hin. destruct Hin as [y [<- Hy]].
    split; [|split].
    + intros Hc. apply StringFacts.In_trim in Hc.
      exact (@StringFacts.split_pieces_sep_free _ _ _ Hy Hc).
    + apply StringFacts.trimmed_trim.
    + apply StringFacts.trim_idempotent.
  - intros s ->. etransitivity; [apply filter_length_le|].
    rewrite length_map. apply le_n.
Qed.

Lemma seeded_entries_normal_witness :
  In (js "Thai")
     (WidgetTsx.cuisineList Sample.payload_no_cuisine Sample.state_messy) /\
  ~ In comma (js "Thai") /\
  trimmed (js "Thai") = true /\
  trim (js "Thai") = js "Thai".
Proof.
  assert (Hin : In (js "Thai")
                   (WidgetTsx.cuisineList Sample.payload_no_cuisine
                                          Sample.state_messy))
    by (right; left; reflexivity).
  split; [exact Hin|].
  exact (proj1 (@seeded_entries_normal
                  Sample.payload_no_cuisine Sample.state_messy
                  (or_introl eq_refl))
               (js "Thai") Hin).
Defined.

Lemma padding_has_no_comma pad : whitespace_only pad = true -> ~ In comma pad.
Proof.
  unfold whitespace_only. intros H Hin.
  rewrite forallb_forall in H. specialize (H comma Hin). discriminate H.
Qed.

Lemma clean_names_fixed names :
  Forall clean_name names ->
  filter Boolean_str (map trim names) = names.
Proof.
  induction 1 as [|x l (Hne & Htr & _) _ IH]; simpl; [reflexivity|].
  rewrite (@StringFacts.trim_fixed x Htr), IH.
  destruct x; [contradiction | reflexivity].
Qed.

(** X8. The cuisine list Widget.tsx derives from the seeded string reads
    back what was written: when the seeded string is a list of names
    joined with a comma followed by any amount of white space (as the
    header joins them, with ", "), each name being non-empty, free of
    commas and of surrounding white space, the list sent is exactly those
    names in their order. *)
Theorem seeded_cuisine_round_trip :
  forall (P : WidgetTsx.Output) (state : WidgetState.t)
         (names : list jsstring) (pad : jsstring),
    absent_or_null (ToolOutput.cuisine P) ->
    Forall clean_name names ->
    whitespace_only pad = true ->
    WidgetState.cuisine state = Val (join (comma :: pad) names) ->
    WidgetTsx.cuisineList P state = names.
Proof.
  intros P state names pad Habs Hnames Hpad Hcuisine.
  rewrite (@cuisineList_seeded P state Habs), Hcuisine.
  destruct names as [|x xs]; [reflexivity|].
  change (filter Boolean_str
            (map trim (split comma (join (comma :: pad) (x :: xs))))
          = x :: xs).
  unfold jsstring in *.
  rewrite (@StringFacts.split_join comma pad x xs).
  - transitivity (filter Boolean_str (map trim (x :: xs)));
      [|exact (clean_names_fixed Hnames)].
    simpl map. f_equal. f_equal. rewrite map_map.
    apply map_ext. intros y. apply StringFacts.trim_padded. exact Hpad.
  - apply padding_has_no_comma. exact Hpad.
  - eapply Forall_impl; [|exact Hnames].
    intros y (_ & _ & Hy). exact Hy.
Qed.

Lemma seeded_cuisine_round_trip_witness :
  WidgetTsx.cuisineList
    Sample.payload_no_cuisine
    (WidgetState.mk (Val (js "Italian, Thai")) undefined undefined null)
  = [js "Italian"; js "Thai"].
Proof.
  apply (@seeded_cuisine_round_trip
           Sample.payload_no_cuisine
           (WidgetState.mk (Val (js "Italian, Thai")) undefined undefined null)
           [js "Italian"; js "Thai"] [32%N]).
  - left; reflexivity.
  - repeat constructor; try discriminate;
      intros H; vm_compute in H; intuition discriminate.
  - reflexivity.
  - reflexivity.
Defined.

Lemma trimStart_whitespace s : whitespace_only s = true -> trimStart s = [].
Proof.
  intros H. rewrite <- (app_nil_r s).
  rewrite StringFacts.trimStart_padding by exact H. reflexivity.
Qed.

(** X9. The cuisine string sent by part_000 is the payload's string, else
    the seeded one, else the empty string, with its surrounding white
    space removed: it neither starts nor ends with white space, trimming
    it again changes nothing, it holds no code unit the source string did
    not hold, and it is empty when the source is missing or made of white
    space only.  The request is sent all the same. *)
Theorem string_cuisine_sent_normal :
  forall (window : Window.t) (Ps : Part000.Output) (state : WidgetState.t)
         (id : jsstring) (host : Host) (n : nat),
    let raw :=
      nullish_default
        (nullish_or (ToolOutput.cuisine Ps) (WidgetState.cuisine state)) [] in
    outbound (Run.trace (run host n (Part000.selectRecipe window Ps state id) state))
    = (if canCallTool window
       then [refresh_request (CuisineString (trim raw)) state id] else []) /\
    trimmed (trim raw) = true /\
    trim (trim raw) = trim raw /\
    (forall c, In c (trim raw) -> In c raw) /\
    (whitespace_only raw = true -> trim raw = []) /\
    (absent_or_null (ToolOutput.cuisine Ps) ->
     absent_or_null (WidgetState.cuisine state) ->
     trim raw = []).
Proof.
  intros window Ps state id host n raw.
  split; [|split; [|split; [|split; [|split]]]].
  - rewrite run_Part000_selectRecipe. cbv zeta. fold raw.
    destruct (canCallTool window); reflexivity.
  - apply StringFacts.trimmed_trim.
  - apply StringFacts.trim_idempotent.
  - intros c. apply StringFacts.In_trim.
  - intros H. unfold trim. rewrite (@trimStart_whitespace raw H). reflexivity.
  - subst raw. intros [-> | ->] [-> | ->]; reflexivity.
Qed.

(* ================================================================== *)
(** ** Life cycle of the carousel controller *)

Module CarouselLife.
Import Part000.

Lemma react_all_snoc ins i : react_all (ins ++ [i]) = react (react_all ins) i.
Proof. unfold react_all. rewrite fold_left_app. reflexivity. Qed.

Lemma react_keeps_subscribed c i : only_subscribed c -> only_subscribed (react c i).
Proof.
  unfold only_subscribed. intros H.
  destruct i as [[| |api]|ev api|]; simpl; try exact H.
  - repeat constructor. exact H.
  - rewrite CarouselFacts.emit_listeners. exact H.
  - apply Forall_forall. intros e He.
    apply filter_In in He. destruct He as [He _].
    apply filter_In in He. destruct He as [He _].
    rewrite Forall_forall in H. exact (H e He).
Qed.

Lemma reachable_only_subscribed ins : only_subscribed (react_all ins).
Proof.
  induction ins as [|i ins IH] using rev_ind; [constructor|].
  rewrite react_all_snoc. apply react_keeps_subscribed. exact IH.
Qed.

Lemma cleanup_clears c : only_subscribed c -> listeners (cleanup c) = [].
Proof.
  unfold only_subscribed, cleanup, off. simpl.
  induction (listeners c) as [|e l IH]; intros H; [reflexivity|].
  inversion H as [|? ? He Hl]; subst.
  destruct e; try discriminate He; simpl; exact (IH Hl).
Qed.

Lemma emit_unheard ev api c :
  existsb (event_eqb ev) (listeners c) = false -> emit ev api c = c.
Proof. unfold emit. intros ->. reflexivity. Qed.

Lemma notifications_unheard notes c :
  forallb is_notify notes = true ->
  listeners c = [] ->
  fold_left react notes c = c.
Proof.
  revert c. induction notes as [|i notes IH]; intros c Hn Hl; [reflexivity|].
  simpl in Hn. apply andb_true_iff in Hn. destruct Hn as [Hi Hn].
  destruct i as [ |ev api| ]; try discriminate Hi. simpl.
  rewrite emit_unheard by (rewrite Hl; reflexivity).
  exact (IH c Hn Hl).
Qed.

Lemma unsubscribed_unheard ev c :
  only_subscribed c -> subscribed_event ev = false ->
  existsb (event_eqb ev) (listeners c) = false.
Proof.
  unfold only_subscribed. intros H Hev.
  induction (listeners c) as [|e l IH]; [reflexivity|].
  inversion H as [|? ? He Hl]; subst. simpl.
  rewrite (IH Hl), orb_false_r.
  destruct ev, e; try reflexivity; discriminate.
Qed.

Lemma engines_seen_app a b : engines_seen (a ++ b) = engines_seen a ++ engines_seen b.
Proof. unfold engines_seen. apply flat_map_app. Qed.

End CarouselLife.

(** X10. At every moment of the controller's life, whatever the inputs
    were, the two booleans are either both still false or the two answers
    one engine gave at one attachment or notification: they are never a
    mix of two moments.  So if no engine ever answered that it can scroll,
    both are false. *)
Theorem carousel_buttons_from_one_answer :
  forall (ins : list Part000.Input),
    let c := Part000.react_all ins in
    ((Part000.canPrev c = false /\ Part000.canNext c = false) \/
     (exists api,
         In api (engines_seen ins) /\
         Part000.canPrev c = Part000.EmblaApi.canScrollPrev api /\
         Part000.canNext c = Part000.EmblaApi.canScrollNext api)) /\
    ((forall api,
         In api (engines_seen ins) ->
         Part000.EmblaApi.canScrollPrev api = false /\
         Part000.EmblaApi.canScrollNext api = false) ->
     Part000.canPrev c = false /\ Part000.canNext c = false).
Proof.
  intros ins c.
  assert (H : (Part000.canPrev c = false /\ Part000.canNext c = false) \/
              (exists api,
                  In api (engines_seen ins) /\
                  Part000.canPrev c = Part000.EmblaApi.canScrollPrev api /\
                  Part000.canNext c = Part000.EmblaApi.canScrollNext api)).
  { subst c. induction ins as [|i ins IH] using rev_ind; [left; split; reflexivity|].
    rewrite CarouselLife.react_all_snoc, CarouselLife.engines_seen_app.
    assert (IH' : (Part000.canPrev (Part000.react_all ins) = false /\
                   Part000.canNext (Part000.react_all ins) = false) \/
                  (exists api,
                      In api (engines_seen ins ++ engines_seen [i]) /\
                      Part000.canPrev (Part000.react_all ins)
                      = Part000.EmblaApi.canScrollPrev api /\
                      Part000.canNext (Part000.react_all ins)
                      = Part000.EmblaApi.canScrollNext api)).
    { destruct IH as [IH | (api & Hin & Hp & Hn)]; [left; exact IH|].
      right. exists api. split; [apply in_or_app; left; exact Hin | split; assumption]. }
    destruct i as [[| |api]|ev api|]; simpl Part000.react; try exact IH'.
    - right. exists api. split; [|split; reflexivity].
      apply in_or_app. right. left. reflexivity.
    - unfold Part000.emit.
      destruct (existsb _ _); [|exact IH'].
      right. exists api. split; [|split; reflexivity].
      apply in_or_app. right. left. reflexivity. }
  split; [exact H|].
  intros Hnone. destruct H as [H | (api & Hin & -> & ->)]; [exact H|].
  exact (Hnone api Hin).
Qed.

(** X11. Once the effect's clean-up has run, the handler is registered
    under no event: whatever was attached or notified before, the
    notifications that follow, [select] and [reInit] included, leave the
    controller exactly as the clean-up left it. *)
Theorem carousel_quiet_after_teardown :
  forall (ins notes : list Part000.Input),
    forallb is_notify notes = true ->
    Part000.react_all (ins ++ Part000.Teardown :: notes)
    = Part000.react_all (ins ++ [Part000.Teardown]) /\
    Part000.listeners (Part000.react_all (ins ++ [Part000.Teardown])) = [].
Proof.
  intros ins notes Hnotes.
  assert (Hl : Part000.listeners (Part000.react_all (ins ++ [Part000.Teardown])) = []).
  { rewrite CarouselLife.react_all_snoc. simpl.
    apply CarouselLife.cleanup_clears, CarouselLife.reachable_only_subscribed. }
  split; [|exact Hl].
  change (ins ++ Part000.Teardown :: notes)
    with (ins ++ [Part000.Teardown] ++ notes).
  rewrite app_assoc. unfold Part000.react_all at 1. rewrite fold_left_app.
  apply CarouselLife.notifications_unheard; assumption.
Qed.

Lemma carousel_quiet_after_teardown_witness :
  Part000.react_all
    [Part000.Mount (Val (Sample.engine 3 1)); Part000.Teardown;
     Part000.Notify Part000.select (Sample.engine 3 2);
     Part000.Notify Part000.reInit (Sample.engine 0 0)]
  = Part000.react_all [Part000.Mount (Val (Sample.engine 3 1)); Part000.Teardown].
Proof.
  apply (@carousel_quiet_after_teardown
           [Part000.Mount (Val (Sample.engine 3 1))]
           [Part000.Notify Part000.select (Sample.engine 3 2);
            Part000.Notify Part000.reInit (Sample.engine 0 0)]
           eq_refl).
Defined.

(** X12. The controller listens to [select] and [reInit] only: at any
    moment of its life a notification of another kind ([scroll], [settle],
    [resize], [destroy]) changes neither boolean nor the subscriptions,
    whatever the engine answers at that moment. *)
Theorem carousel_ignores_other_events :
  forall (ins : list Part000.Input) (ev : Part000.EmblaEvent)
         (api : Part000.EmblaApi.t),
    subscribed_event ev = false ->
    Part000.react_all (ins ++ [Part000.Notify ev api]) = Part000.react_all ins.
Proof.
  intros ins ev api Hev.
  rewrite CarouselLife.react_all_snoc. simpl.
  apply CarouselLife.emit_unheard, CarouselLife.unsubscribed_unheard;
    [apply CarouselLife.reachable_only_subscribed | exact Hev].
Qed.

Lemma carousel_ignores_other_events_witness :
  Part000.react_all
    [Part000.Mount (Val (Sample.engine 3 0));
     Part000.Notify Part000.scroll (Sample.engine 3 2)]
  = Part000.react_all [Part000.Mount (Val (Sample.engine 3 0))].
Proof.
  apply (@carousel_ignores_other_events
           [Part000.Mount (Val (Sample.engine 3 0))]
           Part000.scroll (Sample.engine 3 2) eq_refl).
Defined.

(* ================================================================== *)
(** ** The details text *)

Module MarkdownFacts.

Lemma uint_digits_are_digits d c :
  In c (uint_digits d) -> (48 <= c <= 57)%N.
Proof.
  induction d; simpl; intros H;
    try contradiction;
    (destruct H as [<- | H]; [lia | exact (IHd H)]).
Qed.

Lemma decimal_one_line n : one_line (decimal n).
Proof.
  unfold one_line, decimal. intros H.
  apply uint_digits_are_digits in H. unfold LF in H. lia.
Qed.

Lemma map_index_length {A B} (f : A -> nat -> B) i l :
  List.length (map_index f i l) = List.length l.
Proof.
  revert i. induction l as [|x l IH]; intros i; simpl; [reflexivity|].
  rewrite IH. reflexivity.
Qed.

Lemma map_index_nth {A B} (f : A -> nat -> B) i l k x :
  nth_error l k = Some x ->
  nth_error (map_index f i l) k = Some (f x (i + k)).
Proof.
  revert i k. induction l as [|y l IH]; intros i k; [destruct k; discriminate|].
  destruct k as [|k]; simpl.
  - intros H; injection H as <-. rewrite Nat.add_0_r. reflexivity.
  - intros H. rewrite (IH (S i) k H). rewrite Nat.add_succ_r. reflexivity.
Qed.

Lemma map_index_Forall {A B} (Q : B -> Prop) (f : A -> nat -> B) i l :
  (forall x k, In x l -> Q (f x k)) -> Forall Q (map_index f i l).
Proof.
  revert i. induction l as [|y l IH]; intros i H; simpl; constructor.
  - apply H. left. reflexivity.
  - apply IH. intros x k Hx. apply H. right. exact Hx.
Qed.

Lemma bullets_one_line (items : list jsstring) :
  Forall one_line items ->
  Forall one_line (map (fun item => js "- " ++ item) items).
Proof.
  intros H. apply Forall_map. eapply Forall_impl; [|exact H].
  intros x Hx Hin. apply in_app_or in Hin. destruct Hin as [Hin | Hin].
  - vm_compute in Hin. intuition discriminate.
  - exact (Hx Hin).
Qed.

Lemma numbered_one_line (steps : list jsstring) i :
  Forall one_line steps ->
  Forall one_line
         (map_index (fun step index => decimal (index + 1) ++ js ". " ++ step)
                    i steps).
Proof.
  intros H. apply map_index_Forall. intros x k Hx Hin.
  rewrite Forall_forall in H.
  apply in_app_or in Hin. destruct Hin as [Hin | Hin].
  - exact (decimal_one_line _ Hin).
  - apply in_app_or in Hin. destruct Hin as [Hin | Hin].
    + vm_compute in Hin. intuition discriminate.
    + exact (H x Hx Hin).
Qed.

(** The lines of the details text, for any heading marker without line
    feed. *)
Lemma markdown_lines marks r :
  one_line marks ->
  Forall one_line (Recipe.ingredients r) ->
  Forall one_line (Recipe.steps r) ->
  split LF (View.markdown marks r)
  = [marks ++ js " Ingredients"; []]
      ++ lines_of (map (fun item => js "- " ++ item) (Recipe.ingredients r))
      ++ [marks ++ js " Steps"; []]
      ++ lines_of (map_index
                     (fun step index => decimal (index + 1) ++ js ". " ++ step)
                     0 (Recipe.steps r)).
Proof.
  intros Hm Hi Hs. unfold View.markdown, View.ingredientsList, View.stepsList.
  set (bullets := map (fun item => js "- " ++ item) (Recipe.ingredients r)).
  set (numbered :=
         map_index (fun step index => decimal (index + 1) ++ js ". " ++ step)
                   0 (Recipe.steps r)).
  assert (Hhead : forall t, one_line (js t) -> one_line (marks ++ js t)).
  { intros t Ht Hin. apply in_app_or in Hin. destruct Hin; [exact (Hm H) | exact (Ht H)]. }
  assert (H1 : one_line (js " Ingredients"))
    by (intros H; vm_compute in H; intuition discriminate).
  assert (H2 : one_line (js " Steps"))
    by (intros H; vm_compute in H; intuition discriminate).
  unfold jsstring in *.
  rewrite (app_assoc marks (js " Ingredients")).
  change ([LF; LF] ++ join [LF] bullets ++ [LF] ++ marks ++ js " Steps"
                   ++ [LF; LF] ++ join [LF] numbered)
    with (LF :: ([] ++ LF :: (join [LF] bullets ++ LF :: (marks ++ js " Steps"
                   ++ [LF; LF] ++ join [LF] numbered)))).
  rewrite !StringFacts.split_app_sep.
  rewrite (app_assoc marks (js " Steps")).
  change ([LF; LF] ++ join [LF] numbered)
    with (LF :: ([] ++ LF :: join [LF] numbered)).
  rewrite !StringFacts.split_app_sep.
  rewrite (@StringFacts.split_sep_free LF (marks ++ js " Ingredients") (Hhead _ H1)).
  rewrite (@StringFacts.split_sep_free LF (marks ++ js " Steps") (Hhead _ H2)).
  rewrite (@StringFacts.split_join_lines LF bullets (bullets_one_line Hi)).
  rewrite (@StringFacts.split_join_lines LF numbered (numbered_one_line 0 Hs)).
  reflexivity.
Qed.

End MarkdownFacts.

(** X13. When no ingredient and no step contains a line feed, the details
    text splits at line feeds into: the heading "#### Ingredients"
    (Widget.tsx; "### Ingredients" in part_000), an empty line, one line
    "- item" per ingredient in order, the heading "#### Steps" ("###
    Steps"), an empty line, and one line per step in order, the step at
    index [k] being numbered [k + 1]; an empty list of ingredients or of
    steps leaves one empty line in its place. *)
Theorem details_markdown_lines :
  forall (r : Recipe.t),
    Forall one_line (Recipe.ingredients r) ->
    Forall one_line (Recipe.steps r) ->
    let bullets := map (fun item => js "- " ++ item) (Recipe.ingredients r) in
    let numbered :=
      map_index (fun step index => decimal (index + 1) ++ js ". " ++ step)
                0 (Recipe.steps r) in
    split LF (WidgetTsxView.markdown r)
    = [js "#### Ingredients"; []] ++ lines_of bullets
        ++ [js "#### Steps"; []] ++ lines_of numbered /\
    split LF (Part000View.markdown r)
    = [js "### Ingredients"; []] ++ lines_of bullets
        ++ [js "### Steps"; []] ++ lines_of numbered /\
    List.length numbered = List.length (Recipe.steps r) /\
    (forall k step,
        nth_error (Recipe.steps r) k = Some step ->
        nth_error numbered k = Some (decimal (k + 1) ++ js ". " ++ step)).
Proof.
  intros r Hi Hs bullets numbered.
  split; [|split; [|split]].
  - unfold WidgetTsxView.markdown.
    rewrite MarkdownFacts.markdown_lines; try assumption; [reflexivity|].
    intros H; vm_compute in H; intuition discriminate.
  - unfold Part000View.markdown.
    rewrite MarkdownFacts.markdown_lines; try assumption; [reflexivity|].
    intros H; vm_compute in H; intuition discriminate.
  - apply MarkdownFacts.map_index_length.
  - intros k step H. subst numbered.
    rewrite (MarkdownFacts.map_index_nth _ 0 _ _ H). reflexivity.
Qed.

Lemma details_markdown_lines_witness :
  split LF (WidgetTsxView.markdown Sample.r1)
  = [js "#### Ingredients"; []; js "- pasta"; js "#### Steps"; []; js "1. boil"].
Proof.
  apply (@details_markdown_lines Sample.r1).
  - repeat constructor. intros H; vm_compute in H; intuition discriminate.
  - repeat constructor. intros H; vm_compute in H; intuition discriminate.
Defined.

(* ================================================================== *)
(** ** Cuisine of the refresh request *)

(** C5. Every run of [selectRecipe(id)], whatever the payload holds, sends
    exactly one request when the host can be called and none otherwise;
    the request names the tool [explore_recipe] and carries
    [{ cuisine, min_duration, sort, selected_id }], the two filters being
    the persisted ones and [selected_id] being [id].  Its cuisine keeps
    the shape of the payload's: a list in Widget.tsx, a string in
    part_000.  A payload list is forwarded as it is; a payload string that
    is normalized, that is without surrounding white space, is forwarded
    as it is (part_000 passes the string through [trim], which leaves
    such a string alone). *)
Theorem refresh_request_forwards_cuisine :
  forall (window : Window.t) (Pl : WidgetTsx.Output) (Ps : Part000.Output)
         (state : WidgetState.t) (id : jsstring) (host : Host) (n : nat),
    let raw :=
      nullish_default
        (nullish_or (ToolOutput.cuisine Ps) (WidgetState.cuisine state)) [] in
    outbound (Run.trace (run host n (WidgetTsx.selectRecipe window Pl state id) state))
    = (if canCallTool window
       then [refresh_request (CuisineList (WidgetTsx.cuisineList Pl state)) state id]
       else []) /\
    outbound (Run.trace (run host n (Part000.selectRecipe window Ps state id) state))
    = (if canCallTool window
       then [refresh_request (CuisineString (trim raw)) state id]
       else []) /\
    (forall l,
        ToolOutput.cuisine Pl = Val l ->
        WidgetTsx.cuisineList Pl state = l) /\
    (forall s,
        ToolOutput.cuisine Ps = Val s ->
        trimmed s = true ->
        trim raw = s).
Proof.
  intros window Pl Ps state id host n raw.
  split; [|split; [|split]].
  - rewrite run_WidgetTsx_selectRecipe. cbv zeta.
    destruct (canCallTool window); reflexivity.
  - rewrite run_Part000_selectRecipe. cbv zeta. fold raw.
    destruct (canCallTool window); reflexivity.
  - intros l Hl. unfold WidgetTsx.cuisineList. rewrite Hl. reflexivity.
  - intros s Hs Htrimmed. subst raw. rewrite Hs. simpl.
    apply StringFacts.trim_fixed. exact Htrimmed.
Qed.

Lemma refresh_request_forwards_cuisine_witness :
  ToolOutput.cuisine Sample.payload = Val [js "Italian"] /\
  ToolOutput.cuisine Sample.payload_no_result = Val (js "Italian") /\
  trimmed (js "Italian") = true /\
  outbound
    (Run.trace
       (run Sample.accepting 0
            (WidgetTsx.selectRecipe Sample.host_window Sample.payload
                                    Sample.state_messy (js "r2"))
            Sample.state_messy))
  = [refresh_request (CuisineList [js "Italian"]) Sample.state_messy (js "r2")] /\
  outbound
    (Run.trace
       (run Sample.accepting 0
            (Part000.selectRecipe Sample.host_window Sample.payload_no_result
                                  Sample.state_messy (js "r2"))
            Sample.state_messy))
  = [refresh_request (CuisineString (js "Italian")) Sample.state_messy (js "r2")].
Proof.
  pose proof (@refresh_request_forwards_cuisine
                Sample.host_window Sample.payload Sample.payload_no_result
                Sample.state_messy (js "r2") Sample.accepting 0) as H.
  cbv zeta in H. destruct H as (Hl & Hs & Hlist & Hstring).
  split; [reflexivity|]. split; [reflexivity|]. split; [reflexivity|].
  split.
  - rewrite Hl, (Hlist [js "Italian"] eq_refl). reflexivity.
  - rewrite Hs, (Hstring (js "Italian") eq_refl eq_refl). reflexivity.
Defined.
